(** * insecres: a crawler reporting insecure resources of an HTTPS site

    A shallow embedding of [main.go] (scheduler: [fetchUrl], [crawl],
    [startUrl], [main]) and of the page scanner ([ResourceAndLinkFinder]:
    [Parse], [isResourceToken], [isTargetedResourceTokenAttribute],
    [processResourceToken], [isLinkToken], [processLinkToken],
    [convertToAbsolute]).

    Go strings are byte strings and are modelled by [string]; Go maps by
    stdpp's [gmap]; a Go [(value, error)] return by [result]. *)

From Stdlib Require Import Ascii String List Bool Arith Lia.
From stdpp Require Import base option list gmap strings.

Local Open Scope string_scope.

(** ** Go values shared by the whole program *)

(** A Go [(v, err)] return: [Ok v] is [(v, nil)], [Err msg] is a non-nil
    error (the program never inspects more than its presence). *)
Inductive result (A : Type) : Type :=
| Ok (a : A)
| Err (msg : string).
Arguments Ok {A} a.
Arguments Err {A} msg.

Definition is_Ok {A} (r : result A) : bool :=
  match r with Ok _ => true | Err _ => false end.

(** ** Package [strings] *)
Module strings.

(** [strings.HasPrefix(s, prefix)] *)
Fixpoint HasPrefix (s prefix : string) : bool :=
  match prefix, s with
  | EmptyString, _ => true
  | String _ _, EmptyString => false
  | String p prefix', String c s' =>
      if Ascii.eqb c p then HasPrefix s' prefix' else false
  end.

(** [strings.TrimPrefix(s, prefix)]: [s] without the leading [prefix], or
    [s] itself when it does not start with [prefix]. *)
Fixpoint cutPrefix (s prefix : string) : option string :=
  match prefix, s with
  | EmptyString, _ => Some s
  | String _ _, EmptyString => None
  | String p prefix', String c s' =>
      if Ascii.eqb c p then cutPrefix s' prefix' else None
  end.

Definition TrimPrefix (s prefix : string) : string :=
  match cutPrefix s prefix with Some r => r | None => s end.

(** [strings.TrimSuffix(s, suffix)]: [s] without the trailing [suffix], or
    [s] itself when it does not end with [suffix]. *)
Fixpoint cutSuffix (s suffix : string) : option string :=
  if String.eqb s suffix then Some EmptyString
  else match s with
       | EmptyString => None
       | String c s' =>
           match cutSuffix s' suffix with
           | Some r => Some (String c r)
           | None => None
           end
       end.

Definition HasSuffix (s suffix : string) : bool :=
  match cutSuffix s suffix with Some _ => true | None => false end.

Definition TrimSuffix (s suffix : string) : string :=
  match cutSuffix s suffix with Some r => r | None => s end.

End strings.

(** ** Package [golang.org/x/net/html]: tokens *)
Module html.

Inductive TokenType : Type :=
| ErrorToken
| TextToken
| StartTagToken
| EndTagToken
| SelfClosingTagToken
| CommentToken
| DoctypeToken.

#[global] Instance TokenType_eq_dec : EqDecision TokenType.
Proof. solve_decision. Defined.

Record Attribute : Type := mkAttr { Key : string; Val : string }.

Record Token : Type := mkToken {
  Type_ : TokenType;
  Data : string;
  Attr : list Attribute
}.

End html.

(** ** Package [net/url]: the interface the scanner uses

    The scanner reads the fields [Scheme] and [Host] of a parsed URL and
    calls [url.Parse] and the methods [IsAbs], [String] and
    [ResolveReference] of a URL.  The record mirrors Go's [url.URL]; the three
    library functions are an interface, so that everything proved about the
    scanner holds for whatever the library computes. *)
Module url.

Record URL : Type := mkURL {
  Scheme : string;
  Opaque : string;                            (* encoded opaque data *)
  User : option (string * option string);     (* username, password *)
  Host : string;                              (* host or host:port *)
  Path : string;
  OmitHost : bool;                            (* "scheme:/path", no authority *)
  ForceQuery : bool;                          (* a trailing "?" *)
  RawQuery : string;
  Fragment : string
}.

Definition empty : URL :=
  mkURL "" "" None "" "" false false "" "".

(** [IsAbs] reports whether the URL has a non-empty scheme. *)
Definition IsAbs (u : URL) : bool :=
  negb (String.eqb (Scheme u) "").

Class Lib : Type := {
  Parse : string -> result URL;
  String_ : URL -> string;
  ResolveReference : URL -> URL -> URL   (* base.ResolveReference(ref) *)
}.

End url.

(** ** A reference implementation of the [net/url] interface

    [GoURL] follows the text of Go's [net/url] ([Parse], [String],
    [ResolveReference]) for URLs written without percent-escapes: paths,
    hosts and fragments are taken verbatim, where the library would decode
    or re-encode them, and the host and port are not validated.  It gives the
    concrete inputs of the examples below their library results; the general
    theorems do not depend on it. *)
Module GoURL.
Import strings url.

Definition nonEmpty (s : string) : bool := negb (String.eqb s "").

Definition isCTL (c : ascii) : bool :=
  let n := nat_of_ascii c in (n <? 32)%nat || (n =? 127)%nat.

Fixpoint stringContainsCTLByte (s : string) : bool :=
  match s with
  | EmptyString => false
  | String c s' => isCTL c || stringContainsCTLByte s'
  end.

Definition isAlpha (c : ascii) : bool :=
  let n := nat_of_ascii c in
  ((97 <=? n) && (n <=? 122))%nat || ((65 <=? n) && (n <=? 90))%nat.

Definition isSchemeExtra (c : ascii) : bool :=
  let n := nat_of_ascii c in
  ((48 <=? n) && (n <=? 57))%nat || Ascii.eqb c "+" || Ascii.eqb c "-" || Ascii.eqb c ".".

Definition lowerByte (c : ascii) : ascii :=
  let n := nat_of_ascii c in
  if ((65 <=? n) && (n <=? 90))%nat then ascii_of_nat (n + 32) else c.

Fixpoint ToLower (s : string) : string :=
  match s with
  | EmptyString => EmptyString
  | String c s' => String (lowerByte c) (ToLower s')
  end.

(** [strings.Cut(s, sep)] for a one-byte separator: the text before and
    after its first occurrence. *)
Fixpoint cutFirst (sep : ascii) (s : string) : option (string * string) :=
  match s with
  | EmptyString => None
  | String c s' =>
      if Ascii.eqb c sep then Some (EmptyString, s')
      else match cutFirst sep s' with
           | Some (a, b) => Some (String c a, b)
           | None => None
           end
  end.

(** The text before and after the last occurrence of [sep]
    ([strings.LastIndex]). *)
Fixpoint cutLast (sep : ascii) (s : string) : option (string * string) :=
  match s with
  | EmptyString => None
  | String c s' =>
      match cutLast sep s' with
      | Some (a, b) => Some (String c a, b)
      | None => if Ascii.eqb c sep then Some (EmptyString, s') else None
      end
  end.

Definition Contains (s : string) (sep : ascii) : bool :=
  match cutFirst sep s with Some _ => true | None => false end.

Fixpoint Count (s : string) (sep : ascii) : nat :=
  match s with
  | EmptyString => 0
  | String c s' => (if Ascii.eqb c sep then 1 else 0) + Count s' sep
  end.

(** [getScheme]: [Ok None] when the text has no scheme, [Ok (Some (scheme,
    rest))] at the first colon, an error for a leading colon. *)
Fixpoint schemeEnd (first : bool) (s : string) : result (option (string * string)) :=
  match s with
  | EmptyString => Ok None
  | String c s' =>
      let continue :=
        match schemeEnd false s' with
        | Ok (Some (scheme, rest)) => Ok (Some (String c scheme, rest))
        | r => r
        end in
      if isAlpha c then continue
      else if isSchemeExtra c then (if first then Ok None else continue)
      else if Ascii.eqb c ":" then
             (if first then Err "missing protocol scheme" else Ok (Some (EmptyString, s')))
      else Ok None
  end.

Definition getScheme (rawURL : string) : result (string * string) :=
  match schemeEnd true rawURL with
  | Ok None => Ok ("", rawURL)
  | Ok (Some (scheme, rest)) => Ok (scheme, rest)
  | Err e => Err e
  end.

(** [parseAuthority], without decoding or validation. *)
Definition parseAuthority (authority : string) : option (string * option string) * string :=
  match cutLast "@" authority with
  | None => (None, authority)
  | Some (userinfo, host) =>
      match cutFirst ":" userinfo with
      | None => (Some (userinfo, None), host)
      | Some (username, password) => (Some (username, Some password), host)
      end
  end.

(** [parse(rawURL, false)]: the URL without its fragment. *)
Definition parse (rawURL : string) : result URL :=
  if stringContainsCTLByte rawURL
  then Err "net/url: invalid control character in URL"
  else if String.eqb rawURL "*"
  then Ok (mkURL "" "" None "" "*" false false "" "")
  else
    match getScheme rawURL with
    | Err e => Err e
    | Ok (scheme, rest) =>
        let scheme := ToLower scheme in
        let '(rest, forceQuery, rawQuery) :=
          if HasSuffix rest "?" && (Count rest "?" =? 1)%nat
          then (TrimSuffix rest "?", true, "")
          else match cutFirst "?" rest with
               | Some (a, b) => (a, false, b)
               | None => (rest, false, "")
               end in
        if negb (HasPrefix rest "/") && nonEmpty scheme
        then Ok (mkURL scheme rest None "" "" false forceQuery rawQuery "")
        else if negb (HasPrefix rest "/")
                && Contains (match cutFirst "/" rest with
                             | Some (segment, _) => segment
                             | None => rest
                             end) ":"
        then Err "first path segment in URL cannot contain colon"
        else if (nonEmpty scheme || negb (HasPrefix rest "///")) && HasPrefix rest "//"
        then
          let authority := TrimPrefix rest "//" in
          let '(authority, rest) :=
            match cutFirst "/" authority with
            | Some (a, b) => (a, String "/" b)
            | None => (authority, "")
            end in
          let '(user, host) := parseAuthority authority in
          Ok (mkURL scheme "" user host rest false forceQuery rawQuery "")
        else
          let omitHost := nonEmpty scheme && HasPrefix rest "/" in
          Ok (mkURL scheme "" None "" rest omitHost forceQuery rawQuery "")
    end.

(** [url.Parse]: cut off the fragment, parse the rest, set the fragment. *)
Definition Parse (rawURL : string) : result URL :=
  let '(u, frag) :=
    match cutFirst "#" rawURL with
    | Some (a, b) => (a, b)
    | None => (rawURL, "")
    end in
  match parse u with
  | Err e => Err e
  | Ok url =>
      Ok (mkURL (Scheme url) (Opaque url) (User url) (Host url) (Path url)
                (OmitHost url) (ForceQuery url) (RawQuery url) frag)
  end.

Definition userString (user : string * option string) : string :=
  match user with
  | (username, None) => username
  | (username, Some password) => username ++ ":" ++ password
  end.

Definition hasUser (u : URL) : bool :=
  match User u with Some _ => true | None => false end.

Definition firstSegment (path : string) : string :=
  match cutFirst "/" path with Some (segment, _) => segment | None => path end.

(** [String] reassembles the URL into a URL string. *)
Definition String_ (u : URL) : string :=
  let scheme := if nonEmpty (Scheme u) then Scheme u ++ ":" else "" in
  let rest :=
    if nonEmpty (Opaque u) then Opaque u
    else
      let authority :=
        if nonEmpty (Scheme u) || nonEmpty (Host u) || hasUser u then
          if OmitHost u && String.eqb (Host u) "" && negb (hasUser u) then ""
          else
            (if nonEmpty (Host u) || nonEmpty (Path u) || hasUser u then "//" else "")
            ++ match User u with Some ui => userString ui ++ "@" | None => "" end
            ++ Host u
        else "" in
      let path := Path u in
      let slash :=
        if nonEmpty path && negb (HasPrefix path "/") && nonEmpty (Host u)
        then "/" else "" in
      let dot :=
        if String.eqb (scheme ++ authority ++ slash) "" && Contains (firstSegment path) ":"
        then "./" else "" in
      authority ++ slash ++ dot ++ path in
  scheme ++ rest
  ++ (if ForceQuery u || nonEmpty (RawQuery u) then "?" ++ RawQuery u else "")
  ++ (if nonEmpty (Fragment u) then "#" ++ Fragment u else "").

(** [strings.Split(s, "/")] *)
Fixpoint splitSlash (s : string) : list string :=
  match s with
  | EmptyString => [""]
  | String c s' =>
      if Ascii.eqb c "/" then "" :: splitSlash s'
      else match splitSlash s' with
           | h :: t => String c h :: t
           | [] => [String c ""]
           end
  end.

(** One element of the loop of [resolvePath], on the text written so far
    and the flag [first]. *)
Definition resolveElem (st : string * bool) (elem : string) : string * bool :=
  let '(dst, first) := st in
  if String.eqb elem "." then (dst, false)
  else if String.eqb elem ".." then
    match cutLast "/" (TrimPrefix dst "/") with
    | None => ("/", true)
    | Some (str, _) => ("/" ++ str, first)
    end
  else ((if first then dst else dst ++ "/") ++ elem, false).

(** [resolvePath] applies the algorithm of RFC 3986, sections 5.2.2 to
    5.2.4: merge the reference with the base path, remove the dot
    segments. *)
Definition resolvePath (base ref : string) : string :=
  let full :=
    if String.eqb ref "" then base
    else if negb (HasPrefix ref "/") then
      match cutLast "/" base with
      | Some (dir, _) => dir ++ "/" ++ ref
      | None => ref
      end
    else ref in
  if String.eqb full "" then ""
  else
    let elems := splitSlash full in
    let dst := fst (foldl resolveElem ("/", true) elems) in
    let last_elem := List.last elems "" in
    let dst :=
      if String.eqb last_elem "." || String.eqb last_elem ".." then dst ++ "/" else dst in
    if HasPrefix dst "//" then TrimPrefix dst "/" else dst.

(** [u.ResolveReference(ref)], RFC 3986 section 5.2. *)
Definition ResolveReference (u ref : URL) : URL :=
  let scheme := if String.eqb (Scheme ref) "" then Scheme u else Scheme ref in
  if nonEmpty (Scheme ref) || nonEmpty (Host ref) || hasUser ref then
    mkURL scheme (Opaque ref) (User ref) (Host ref) (resolvePath (Path ref) "")
          (OmitHost ref) (ForceQuery ref) (RawQuery ref) (Fragment ref)
  else if nonEmpty (Opaque ref) then
    mkURL scheme (Opaque ref) None "" ""
          (OmitHost ref) (ForceQuery ref) (RawQuery ref) (Fragment ref)
  else
    let inherit :=
      String.eqb (Path ref) "" && negb (ForceQuery ref) && String.eqb (RawQuery ref) "" in
    let rawQuery := if inherit then RawQuery u else RawQuery ref in
    let fragment :=
      if inherit && String.eqb (Fragment ref) "" then Fragment u else Fragment ref in
    if String.eqb (Path ref) "" && nonEmpty (Opaque u) then
      mkURL scheme (Opaque u) None "" ""
            (OmitHost ref) (ForceQuery ref) rawQuery fragment
    else
      mkURL scheme (Opaque ref) (User u) (Host u) (resolvePath (Path u) (Path ref))
            (OmitHost ref) (ForceQuery ref) rawQuery fragment.

#[export] Instance lib : url.Lib := {|
  url.Parse := Parse;
  url.String_ := String_;
  url.ResolveReference := ResolveReference
|}.

End GoURL.

(** ** The page scanner: [ResourceAndLinkFinder] *)
Module ResourceAndLinkFinder.
Import strings html.

(** The tag names of the inner [switch token.Data] of [isResourceToken]. *)
Definition mediaTags : list string :=
  ["iframe"; "object"; "video"; "audio"; "source"; "track"].

(** Determine whether the token passed is a resource token. *)
Definition isResourceToken (token : Token) : bool :=
  if bool_decide (Type_ token = SelfClosingTagToken) && String.eqb (Data token) "img"
  then true
  else if bool_decide (Type_ token = StartTagToken)
  then existsb (String.eqb (Data token)) mediaTags
  else false.

Definition isTargetedResourceTokenAttribute (token : Token) (attribute : Attribute) : bool :=
  if String.eqb (Data token) "object" && String.eqb (Key attribute) "data"
  then true
  else if String.eqb (Key attribute) "src" || String.eqb (Key attribute) "poster"
  then true
  else false.

(** Determine whether the token passed is a link token. *)
Definition isLinkToken (token : Token) : bool :=
  bool_decide (Type_ token = StartTagToken) && String.eqb (Data token) "a".

Section WithLibrary.
Context {L : url.Lib}.

(** The guard of [processResourceToken]: "Ignore relative and secure
    urls". *)
Definition ignoredResource (uri : url.URL) : bool :=
  negb (url.IsAbs uri)
  || String.eqb (url.Scheme uri) "https"
  || (negb (String.eqb (url.Host uri) "") && HasPrefix (url.String_ uri) "//").

(** One iteration of the attribute loop of [processResourceToken], on the
    map [result] built so far. *)
Definition resourceAttr (token : Token) (result : gmap string string)
    (attr : Attribute) : gmap string string :=
  if negb (isTargetedResourceTokenAttribute token attr) then result
  else match url.Parse (Val attr) with
       | Err _ => result
       | Ok uri =>
           if ignoredResource uri then result
           else <[Key attr := url.String_ uri]> result
       end.

(** Process resource token in order to get urls of the resources. *)
Definition processResourceToken (token : Token) : result (gmap string string) :=
  let result := foldl (resourceAttr token) ∅ (Attr token) in
  if Nat.eqb (size result) 0
  then Err "Targeted attributes have not been found. Skipped."
  else Ok result.

(** Convert a relative url to absolute. *)
Definition convertToAbsolute (source base : url.URL) : url.URL :=
  url.ResolveReference base source.

(** The test "the uri is absolute" of [processLinkToken]: it has a scheme,
    or it has a host and is written [//host...]. *)
Definition treatedAsAbsolute (uri : url.URL) : bool :=
  url.IsAbs uri
  || (negb (String.eqb (url.Host uri) "") && HasPrefix (url.String_ uri) "//").

(** The body of the attribute loop of [processLinkToken] once an [href]
    attribute is reached; the loop always returns there. *)
Definition processHref (val base : string) : result string :=
  if HasPrefix val "#" then Err "Url is an anchor. Skipped."
  else match url.Parse val with
       | Err e => Err e
       | Ok uri =>
           match url.Parse base with
           | Err e => Err e
           | Ok baseUrl =>
               if treatedAsAbsolute uri then
                 if negb (String.eqb (TrimPrefix (url.Host uri) "www.")
                                     (TrimPrefix (url.Host baseUrl) "www."))
                 then Err "Url is expernal. Skipped."
                 else Ok (TrimSuffix (url.String_ uri) "/")
               else
                 let absoluteUrl := convertToAbsolute uri baseUrl in
                 Ok (TrimSuffix (url.String_ absoluteUrl) "/")
           end
       end.

Fixpoint processLinkAttrs (attrs : list Attribute) (base : string) : result string :=
  match attrs with
  | [] => Err "Src has not been found. Skipped."
  | attr :: attrs' =>
      if negb (String.eqb (Key attr) "href") then processLinkAttrs attrs' base
      else processHref (Val attr) base
  end.

(** Process <A> token in order to get an absolute url of the link. *)
Definition processLinkToken (token : Token) (base : string) : result string :=
  processLinkAttrs (Attr token) base.

(** [for _, uri := range uris { resourceMap[uri] = true }] *)
Definition addAll (uris : gmap string string) (resourceMap : gmap string bool)
    : gmap string bool :=
  foldr (fun kv m => <[kv.2 := true]> m) resourceMap (map_to_list uris).

(** The token loop of [Parse].  The tokenizer is a pull stream: [page] is
    what successive calls of [page.Next()] deliver; a token of type
    [ErrorToken] is the tokenizer's error (a parse error, or [io.EOF]),
    and an exhausted stream delivers [ErrorToken] as well. *)
Fixpoint scan (baseUrl : string) (page : list Token)
    (resourceMap linkMap : gmap string bool) : gmap string bool * gmap string bool :=
  match page with
  | [] => (resourceMap, linkMap)
  | token :: page' =>
      if bool_decide (Type_ token = ErrorToken) then (resourceMap, linkMap)
      else if isResourceToken token then
        match processResourceToken token with
        | Err _ => scan baseUrl page' resourceMap linkMap
        | Ok uris => scan baseUrl page' (addAll uris resourceMap) linkMap
        end
      else if isLinkToken token then
        match processLinkToken token baseUrl with
        | Err _ => scan baseUrl page' resourceMap linkMap
        | Ok uri => scan baseUrl page' resourceMap (<[uri := true]> linkMap)
        end
      else scan baseUrl page' resourceMap linkMap
  end.

(** [for k := range m { out = append(out, k) }]: the keys of a map (Go
    leaves their order unspecified; the order here is stdpp's). *)
Definition keys (m : gmap string bool) : list string :=
  (map_to_list m).*1.

(** [Parse] returns the insecure resource urls and the link urls found in
    the page, and a nil error. *)
Definition Parse (baseUrl : string) (httpBody : list Token)
    : result (list string * list string) :=
  let '(resourceMap, linkMap) := scan baseUrl httpBody ∅ ∅ in
  let resourceUrls := keys resourceMap in
  let linkUrls := keys linkMap in
  Ok (resourceUrls, linkUrls).

End WithLibrary.
End ResourceAndLinkFinder.

(** ** The scheduler: [main.go] *)
Module main.

(** *** The visited registry *)

(** [crawl] builds it as [&Registry{processed: make(map[string]int)}]. *)
Record Registry : Type := mkRegistry { processed : gmap string nat }.

(** Modelled from the spec: the methods [IsNew] and [MarkAsProcessed] of
    [Registry], whose file is not among the sources.  The spec's registry
    is a set of URL strings with a presence check and an insertion and no
    deletion; [crawl] calls the check as [IsNew], [fetchUrl] calls the
    insertion as [MarkAsProcessed], each under the registry's lock. *)
Definition IsNew (r : Registry) (url : string) : bool :=
  bool_decide (processed r !! url = None).

Definition MarkAsProcessed (r : Registry) (url : string) : Registry :=
  mkRegistry (<[url := S (default 0 (processed r !! url))]> (processed r)).

(** *** Output and goroutines *)

Inductive Output : Type :=
| Finding (page resource : string)      (* fmt.Printf("%s: %s\n", url, insecureResourceUrl) *)
| Line (text : string)                  (* fmt.Println / fmt.Printf of a text *)
| Dump (r : Registry).                  (* fmt.Println(registry) *)

(** A goroutine running [fetchUrl(url, queue, registry)]: launched by [go]
    and not yet run; blocked in [queue <- url] on the first of the page
    urls it still has to send (the channel is unbuffered); or finished. *)
Inductive Goroutine : Type :=
| Launched (url : string)
| Sending (url : string) (pageUrls : list string)
| Finished (url : string).

Record State : Type := mkState {
  registry : Registry;
  goroutines : list Goroutine;
  flag : bool;                 (* the variable [flag] of [crawl] *)
  returned : bool;             (* [crawl] has returned *)
  output : list Output;        (* what the process has printed *)
  dispatched : list string     (* the urls of the [go fetchUrl] statements run *)
}.

Definition setGoroutine (i : nat) (g : Goroutine) (st : State) : State :=
  mkState (registry st) (<[i := g]> (goroutines st)) (flag st) (returned st)
          (output st) (dispatched st).

(** [go fetchUrl(url, queue, registry)] *)
Definition goFetchUrl (url : string) (st : State) : State :=
  mkState (registry st) (goroutines st ++ [Launched url]) (flag st) (returned st)
          (output st) (dispatched st ++ [url]).

(** The events the [select] of [crawl] reacts to. *)
Inductive Event : Type :=
| Arrival (url : string)      (* case url := <-queue *)
| Tick.                       (* case <-tick *)

(** One iteration of the [for { select { ... } }] loop of [crawl]. *)
Definition select (ev : Event) (st : State) : State :=
  match ev with
  | Arrival url =>
      let st := mkState (registry st) (goroutines st) false (returned st)
                        (output st) (dispatched st) in
      (* Ignore processed urls. *)
      if negb (IsNew (registry st) url) then st
      else goFetchUrl url st
  | Tick =>
      if flag st
      then mkState (registry st) (goroutines st) (flag st) true
                   (output st ++ [Line "-----"; Line "log:"; Dump (registry st)])
                   (dispatched st)
      else mkState (registry st) (goroutines st) true (returned st)
                   (output st) (dispatched st)
  end.

(** The loop of [crawl] on the events it receives, until it returns. *)
Fixpoint loop (events : list Event) (st : State) : State :=
  match events with
  | [] => st
  | ev :: events' => if returned st then st else loop events' (select ev st)
  end.

(** [crawl] up to its loop: a fresh registry, the seed's goroutine, [flag]
    false. *)
Definition crawl (url : string) : State :=
  goFetchUrl url (mkState (mkRegistry ∅) [] false false [] []).

Section WithFetcher.
(** [InsecureResourceFetcher{}.Fetch(url)], which is not among the
    sources: the insecure resource urls and the page urls of the page at
    [url], or an error. *)
Variable Fetch : string -> result (list string * list string).

(** [fetchUrl] from its first statement to its first [queue <- url], or
    to its end. *)
Definition fetchUrl (url : string) (st : State) : State * Goroutine :=
  (* Lock url so that no one other goroutine can process it. *)
  let registry := MarkAsProcessed (registry st) url in
  match Fetch url with
  | Err err =>
      (* fmt.Errorf builds an error value, which is dropped; return *)
      (mkState registry (goroutines st) (flag st) (returned st)
               (output st) (dispatched st),
       Finished url)
  | Ok (insecureResourceUrls, pageUrls) =>
      (mkState registry (goroutines st) (flag st) (returned st)
               (output st ++ map (Finding url) insecureResourceUrls)
               (dispatched st),
       match pageUrls with
       | [] => Finished url
       | _ :: _ => Sending url pageUrls
       end)
  end.

(** What can happen next: goroutine [i] runs [fetchUrl] up to its first
    send; the loop of [crawl] receives what goroutine [i] sends; the
    ticker fires. *)
Inductive Action : Type :=
| Run (i : nat)
| Receive (i : nat)
| Timer.

(** One step of the program; [None] when the action is not enabled.  Once
    [crawl] has returned, [main] returns and the process is over. *)
Definition step (a : Action) (st : State) : option State :=
  if returned st then None
  else match a with
       | Run i =>
           match goroutines st !! i with
           | Some (Launched url) =>
               let '(st', g) := fetchUrl url st in
               Some (setGoroutine i g st')
           | _ => None
           end
       | Receive i =>
           match goroutines st !! i with
           | Some (Sending from (url :: pageUrls)) =>
               let g := match pageUrls with
                        | [] => Finished from
                        | _ :: _ => Sending from pageUrls
                        end in
               Some (select (Arrival url) (setGoroutine i g st))
           | _ => None
           end
       | Timer => Some (select Tick st)
       end.

Fixpoint run (schedule : list Action) (st : State) : option State :=
  match schedule with
  | [] => Some st
  | a :: schedule' =>
      match step a st with
      | Some st' => run schedule' st'
      | None => None
      end
  end.

(** [startUrl]: [args] is [flag.Args()]. *)
Definition startUrl (args : list string) : result string :=
  if (length args <? 1)%nat
  then Err "Please specify the HTTPS address of the site, e.g. https://example.com"
  else Ok (nth 0 args "").

(** How a run of the process stands after a schedule: it has exited with
    a code, or [crawl] is still in its loop. *)
Inductive Process : Type :=
| Exited (code : nat) (out : list Output)
| Crawling (st : State)
| NoSuchRun.

(** [main]: [os.Exit(1)] on an error of [startUrl]; otherwise [crawl],
    and the exit code 0 of a [main] that returns. *)
Definition main (args : list string) (schedule : list Action) : Process :=
  match startUrl args with
  | Err err => Exited 1 [Line err]
  | Ok startUrl =>
      match run schedule (crawl startUrl) with
      | None => NoSuchRun
      | Some st => if returned st then Exited 0 (output st) else Crawling st
      end
  end.

End WithFetcher.
End main.

(** ** Notions of the specification

    Definitions that follow the specification's words; the theorems below
    compare them with the program. *)
Module Spec.
Import strings html.

(** The host without a leading "www." label. *)
Definition stripWWW (host : string) : string :=
  match host with
  | String "w" (String "w" (String "w" (String "." rest))) => rest
  | _ => host
  end.

(** The candidate of an anchor: the value of its first [href] attribute. *)
Definition href (token : Token) : option string :=
  Val <$> List.find (fun a => String.eqb (Key a) "href") (Attr token).

Section WithLibrary.
Context {L : url.Lib}.

(** The scheme-relative form "//host/...": the url has a host and its text
    starts with "//". *)
Definition schemeRelative (uri : url.URL) : Prop :=
  url.Host uri <> "" /\ HasPrefix (url.String_ uri) "//" = true.

(** "If candidate is already absolute (has scheme) or is scheme-relative,
    treat its host directly; otherwise resolve it against the base URL's
    components (scheme, host, path)". *)
Definition isDirect (uri : url.URL) : bool :=
  negb (String.eqb (url.Scheme uri) "")
  || (negb (String.eqb (url.Host uri) "") && HasPrefix (url.String_ uri) "//").

Definition linkHost (baseUrl uri : url.URL) : string :=
  if isDirect uri then url.Host uri else url.Host baseUrl.

Definition linkTarget (baseUrl uri : url.URL) : url.URL :=
  if isDirect uri then uri else url.ResolveReference baseUrl uri.

(** A start url as the invocation wants it: "a fully-qualified address
    using the encrypted transport scheme". *)
Definition startUrlOk (arg : string) : Prop :=
  exists uri, url.Parse arg = Ok uri
              /\ url.Scheme uri = "https" /\ url.Host uri <> "".

(** What the scanner reports for the attribute [key] of a resource tag. *)
Definition reported (token : Token) (key : string) : option string :=
  match ResourceAndLinkFinder.processResourceToken token with
  | Ok uris => uris !! key
  | Err _ => None
  end.

(** An entry of the map of [processResourceToken]: the string of the
    parsed value of a targeted attribute that the guard lets through,
    under the attribute's key. *)
Definition fromAttribute (token : Token) (key u : string) : Prop :=
  exists attr uri,
    attr ∈ Attr token /\ Key attr = key
    /\ ResourceAndLinkFinder.isTargetedResourceTokenAttribute token attr = true
    /\ url.Parse (Val attr) = Ok uri
    /\ ResourceAndLinkFinder.ignoredResource uri = false
    /\ u = url.String_ uri.
End WithLibrary.

Definition startsWithTick (events : list main.Event) : bool :=
  match events with
  | main.Tick :: _ => true
  | _ => false
  end.

(** Two ticks with no queue arrival between them. *)
Fixpoint twoAdjacentTicks (events : list main.Event) : bool :=
  match events with
  | main.Tick :: ((main.Tick :: _) as events') => true
  | _ :: events' => twoAdjacentTicks events'
  | [] => false
  end.

(** The polling intervals that a sequence of events completes, in order:
    each tick ends one, and the interval is [true] when no queue arrival
    fell into it.  [silent] tells whether the interval under way has been
    without arrival so far. *)
Fixpoint intervals (silent : bool) (events : list main.Event) : list bool :=
  match events with
  | [] => []
  | main.Arrival _ :: events' => intervals false events'
  | main.Tick :: events' => silent :: intervals true events'
  end.

(** "The second consecutive silent interval": two polling intervals in a
    row, each without a queue arrival. *)
Fixpoint twoConsecutiveSilent (silences : list bool) : bool :=
  match silences with
  | true :: ((true :: _) as silences') => true
  | _ :: silences' => twoConsecutiveSilent silences'
  | [] => false
  end.

Definition twoSilentIntervals (events : list main.Event) : bool :=
  twoConsecutiveSilent (intervals true events).

End Spec.

(** ** A small site, for the examples

    Three pages: the seed links to [/a] and [/b], and [/b] links to [/a];
    every other fetch fails. *)
Module Example.

Definition seed : string := "https://example.com".
Definition pageA : string := "https://example.com/a".
Definition pageB : string := "https://example.com/b".

Definition Fetch (url : string) : result (list string * list string) :=
  if String.eqb url seed then Ok ([], [pageA; pageB])
  else if String.eqb url pageB then Ok ([], [pageA])
  else if String.eqb url pageA then Ok ([], [])
  else Err "Get: no such host".

(** The seed's goroutine runs and hands [/a] and then [/b] to the loop; the
    goroutine of [/b] runs and hands [/a] to the loop, while the goroutine
    launched for [/a] has not run yet. *)
Definition schedule : list main.Action :=
  [main.Run 0; main.Receive 0; main.Receive 0; main.Run 2; main.Receive 2].

(** Tokens, as the tokenizer delivers them. *)
Definition imgStart : html.Token :=        (* <img src="http://insecure.example.com/a.png"> *)
  html.mkToken html.StartTagToken "img"
    [html.mkAttr "src" "http://insecure.example.com/a.png"].
Definition imgClosed : html.Token :=       (* <img src="http://insecure.example.com/a.png"/> *)
  html.mkToken html.SelfClosingTagToken "img"
    [html.mkAttr "src" "http://insecure.example.com/a.png"].
Definition imgSlash : html.Token :=        (* <img src="http://cdn.example.com/"/> *)
  html.mkToken html.SelfClosingTagToken "img"
    [html.mkAttr "src" "http://cdn.example.com/"].
Definition imgFtp : html.Token :=          (* <img src="ftp://example.com/x.jpg"/> *)
  html.mkToken html.SelfClosingTagToken "img"
    [html.mkAttr "src" "ftp://example.com/x.jpg"].
Definition anchorPage : html.Token :=      (* <a href="https://example.com/page/"> *)
  html.mkToken html.StartTagToken "a"
    [html.mkAttr "href" "https://example.com/page/"].
Definition anchorSection : html.Token :=   (* <a href="#section"> *)
  html.mkToken html.StartTagToken "a" [html.mkAttr "href" "#section"].
Definition anchorEmpty : html.Token :=     (* <a href=""> *)
  html.mkToken html.StartTagToken "a" [html.mkAttr "href" ""].
Definition anchorNext : html.Token :=      (* <a class="nav" href="/next"> *)
  html.mkToken html.StartTagToken "a"
    [html.mkAttr "class" "nav"; html.mkAttr "href" "/next"].

End Example.

(** ** Notions for the further properties *)
Module Notions.
Import strings html.

(** The tokens the loop of [Parse] visits: those before the first error
    token. *)
Fixpoint beforeError (page : list Token) : list Token :=
  match page with
  | [] => []
  | token :: page' =>
      if bool_decide (Type_ token = ErrorToken) then []
      else token :: beforeError page'
  end.

(** The url of the [fetchUrl] call a goroutine runs. *)
Definition goroutineUrl (g : main.Goroutine) : string :=
  match g with
  | main.Launched url => url
  | main.Sending url _ => url
  | main.Finished url => url
  end.

(** The goroutine is past the fetch of [fetchUrl]. *)
Definition hasFetched (g : main.Goroutine) : bool :=
  match g with
  | main.Launched _ => false
  | main.Sending _ _ => true
  | main.Finished _ => true
  end.

Definition isFinding (o : main.Output) : bool :=
  match o with
  | main.Finding _ _ => true
  | _ => false
  end.

Section WithLibrary.
Context {L : url.Lib}.

(** The two results of [Parse]. *)
Definition resourcesOf (baseUrl : string) (page : list Token) : list string :=
  match ResourceAndLinkFinder.Parse baseUrl page with
  | Ok (resourceUrls, _) => resourceUrls
  | Err _ => []
  end.

Definition linksOf (baseUrl : string) (page : list Token) : list string :=
  match ResourceAndLinkFinder.Parse baseUrl page with
  | Ok (_, linkUrls) => linkUrls
  | Err _ => []
  end.

(** What the attribute loop of [processResourceToken] stores for one
    attribute, if anything. *)
Definition accepted (token : Token) (attr : Attribute) : option string :=
  if ResourceAndLinkFinder.isTargetedResourceTokenAttribute token attr then
    match url.Parse (Val attr) with
    | Ok uri =>
        if ResourceAndLinkFinder.ignoredResource uri then None
        else Some (url.String_ uri)
    | Err _ => None
    end
  else None.

Definition acceptedUnder (token : Token) (key : string) (attr : Attribute)
    : option string :=
  if String.eqb (Key attr) key then accepted token attr else None.

End WithLibrary.

Section WithFetcher.
Variable Fetch : string -> result (list string * list string).

(** The fetch of [page] succeeds and returns [u] among the page urls, or
    [r] among the insecure resource urls. *)
Definition linked (page u : string) : Prop :=
  exists resources links, Fetch page = Ok (resources, links) /\ u ∈ links.

Definition found (page r : string) : Prop :=
  exists resources links, Fetch page = Ok (resources, links) /\ r ∈ resources.

(** What holds of every state of a crawl started on [seed]. *)
Definition consistent (seed : string) (st : main.State) : Prop :=
  goroutineUrl <$> main.goroutines st = main.dispatched st
  /\ (exists rest, main.dispatched st = seed :: rest)
  /\ (forall i from links,
        main.goroutines st !! i = Some (main.Sending from links) ->
        links <> [] /\ forall u, u ∈ links -> linked from u)
  /\ (forall u, u ∈ main.dispatched st ->
                u = seed \/ exists page, page ∈ main.dispatched st /\ linked page u)
  /\ (forall page r, main.Finding page r ∈ main.output st ->
                     page ∈ main.dispatched st /\ found page r).

End WithFetcher.
End Notions.

(** ** More inputs for the examples *)
Module Example2.

(** A seed page with one insecure image and one link. *)
Definition Fetch (url : string) : result (list string * list string) :=
  if String.eqb url Example.seed
  then Ok (["http://cdn.example.com/a.png"], [Example.pageA])
  else Err "Get: no such host".

(** The crawl of [Example] once the seed's goroutine has fetched its page. *)
Definition afterSeed : main.State :=
  default (main.crawl Example.seed)
          (main.run Example.Fetch [main.Run 0] (main.crawl Example.seed)).

Definition anchorClosed : html.Token :=    (* <a href="/next"/> *)
  html.mkToken html.SelfClosingTagToken "a" [html.mkAttr "href" "/next"].

Definition anchorSchemeRelative : html.Token :=   (* <a href="//example.com/x/"> *)
  html.mkToken html.StartTagToken "a" [html.mkAttr "href" "//example.com/x/"].

(** The tokenizer's error token. *)
Definition errorToken : html.Token :=
  html.mkToken html.ErrorToken "" [].

(** A page that is cut by a tokenizer error: a rejected anchor, a link and
    an image before the error, a link after it. *)
Definition cutPage : list html.Token :=
  [Example.anchorSection; Example.anchorNext; Example.imgClosed].

Definition afterCut : list html.Token :=
  [errorToken; Example.anchorPage].

End Example2.

(** * Properties *)

(** ** Package [strings] *)
Section StringFacts.
Import strings.

Lemma length_app (s t : string) :
  String.length (s ++ t) = String.length s + String.length t.
Proof. induction s as [|c s IH]; simpl; [reflexivity | rewrite IH; reflexivity]. Qed.

Lemma cutSuffix_unfold (s suffix : string) :
  cutSuffix s suffix =
  if String.eqb s suffix then Some EmptyString
  else match s with
       | EmptyString => None
       | String c s' =>
           match cutSuffix s' suffix with
           | Some r => Some (String c r)
           | None => None
           end
       end.
Proof. destruct s; reflexivity. Qed.

Lemma cutSuffix_Some (s suffix r : string) :
  cutSuffix s suffix = Some r <-> s = r ++ suffix.
Proof.
  split.
  - revert r. induction s as [|c s IH]; intros r; rewrite cutSuffix_unfold.
    + destruct (String.eqb_spec "" suffix) as [<-|_]; [|discriminate].
      intros [= <-]. reflexivity.
    + destruct (String.eqb_spec (String c s) suffix) as [<-|_].
      * intros [= <-]. reflexivity.
      * destruct (cutSuffix s suffix) as [r'|] eqn:E; [|discriminate].
        intros [= <-]. rewrite (IH r' eq_refl) at 1. reflexivity.
  - intros ->. induction r as [|c r IH].
    + rewrite cutSuffix_unfold. simpl. rewrite String.eqb_refl. reflexivity.
    + rewrite cutSuffix_unfold.
      destruct (String.eqb_spec (String c r ++ suffix) suffix) as [E|_].
      * exfalso. apply (f_equal String.length) in E. simpl in E.
        rewrite length_app in E. lia.
      * simpl. rewrite IH. reflexivity.
Qed.

(** [TrimSuffix] removes one occurrence of the suffix, and only one. *)
Lemma TrimSuffix_app (r suffix : string) : TrimSuffix (r ++ suffix) suffix = r.
Proof.
  unfold TrimSuffix. pose proof (proj2 (cutSuffix_Some (r ++ suffix) suffix r) eq_refl) as ->.
  reflexivity.
Qed.

Lemma TrimSuffix_none (s suffix : string) :
  HasSuffix s suffix = false -> TrimSuffix s suffix = s.
Proof.
  unfold HasSuffix, TrimSuffix. destruct (cutSuffix s suffix); [discriminate|reflexivity].
Qed.

Lemma TrimSuffix_cases (s suffix : string) :
  s = TrimSuffix s suffix ++ suffix
  \/ (HasSuffix s suffix = false /\ TrimSuffix s suffix = s).
Proof.
  unfold HasSuffix, TrimSuffix. destruct (cutSuffix s suffix) as [r|] eqn:E.
  - left. apply cutSuffix_Some. exact E.
  - right. split; reflexivity.
Qed.

Lemma TrimPrefix_www (host : string) : TrimPrefix host "www." = Spec.stripWWW host.
Proof.
  unfold TrimPrefix.
  destruct host as [|c1 host]; [reflexivity|]. cbn [cutPrefix].
  destruct (Ascii.eqb_spec c1 "w") as [->|N];
    [|destruct c1 as [[] [] [] [] [] [] [] []]; solve [reflexivity | congruence]].
  destruct host as [|c2 host]; [reflexivity|]. cbn [cutPrefix].
  destruct (Ascii.eqb_spec c2 "w") as [->|N];
    [|destruct c2 as [[] [] [] [] [] [] [] []]; solve [reflexivity | congruence]].
  destruct host as [|c3 host]; [reflexivity|]. cbn [cutPrefix].
  destruct (Ascii.eqb_spec c3 "w") as [->|N];
    [|destruct c3 as [[] [] [] [] [] [] [] []]; solve [reflexivity | congruence]].
  destruct host as [|c4 host]; [reflexivity|]. cbn [cutPrefix].
  destruct (Ascii.eqb_spec c4 ".") as [->|N];
    [|destruct c4 as [[] [] [] [] [] [] [] []]; solve [reflexivity | congruence]].
  destruct host; reflexivity.
Qed.

End StringFacts.

(** ** The page scanner *)
Section Scanner.
Import strings html ResourceAndLinkFinder.
Context {L : url.Lib}.

Lemma isDirect_treatedAsAbsolute (uri : url.URL) :
  Spec.isDirect uri = treatedAsAbsolute uri.
Proof. reflexivity. Qed.

(** The attribute loop of [processLinkToken] returns at the first [href]. *)
Lemma processLinkToken_href (token : Token) (base : string) :
  processLinkToken token base =
  match Spec.href token with
  | Some val => processHref val base
  | None => Err "Src has not been found. Skipped."
  end.
Proof.
  unfold processLinkToken, Spec.href. induction (Attr token) as [|attr attrs IH]; simpl.
  - reflexivity.
  - destruct (String.eqb (Key attr) "href"); simpl; [reflexivity | exact IH].
Qed.

(** What [processHref] returns once both urls parse. *)
Lemma processHref_parsed (val base : string) (uri baseUrl : url.URL) :
  HasPrefix val "#" = false ->
  url.Parse val = Ok uri ->
  url.Parse base = Ok baseUrl ->
  processHref val base =
  if Spec.isDirect uri
  then if String.eqb (Spec.stripWWW (url.Host uri)) (Spec.stripWWW (url.Host baseUrl))
       then Ok (TrimSuffix (url.String_ uri) "/")
       else Err "Url is expernal. Skipped."
  else Ok (TrimSuffix (url.String_ (url.ResolveReference baseUrl uri)) "/").
Proof.
  intros Hanchor Huri Hbase. unfold processHref.
  rewrite Hanchor, Huri, Hbase, <- isDirect_treatedAsAbsolute, !TrimPrefix_www.
  destruct (Spec.isDirect uri); [|reflexivity].
  destruct (String.eqb _ _); reflexivity.
Qed.

(** When [processHref] accepts, and what it returns. *)
Lemma processHref_Ok (val base u : string) :
  processHref val base = Ok u
  <-> HasPrefix val "#" = false
      /\ exists uri baseUrl,
          url.Parse val = Ok uri
          /\ url.Parse base = Ok baseUrl
          /\ Spec.stripWWW (Spec.linkHost baseUrl uri) = Spec.stripWWW (url.Host baseUrl)
          /\ u = TrimSuffix (url.String_ (Spec.linkTarget baseUrl uri)) "/".
Proof.
  destruct (HasPrefix val "#") eqn:Hanchor.
  { unfold processHref. rewrite Hanchor. split; [discriminate|]. intros [? _]. discriminate. }
  destruct (url.Parse val) as [uri|e] eqn:Huri.
  2:{ unfold processHref. rewrite Hanchor, Huri.
      split; [discriminate|]. intros [_ (uri & baseUrl & ? & _)]. discriminate. }
  destruct (url.Parse base) as [baseUrl|e] eqn:Hbase.
  2:{ unfold processHref. rewrite Hanchor, Huri, Hbase.
      split; [discriminate|]. intros [_ (uri' & baseUrl & _ & ? & _)]. discriminate. }
  rewrite (processHref_parsed val base uri baseUrl Hanchor Huri Hbase).
  unfold Spec.linkHost, Spec.linkTarget. split.
  - intros Hu. split; [reflexivity|]. exists uri, baseUrl. do 2 (split; [reflexivity|]).
    destruct (Spec.isDirect uri).
    + destruct (String.eqb_spec (Spec.stripWWW (url.Host uri))
                                (Spec.stripWWW (url.Host baseUrl))) as [Heq|_];
        [|discriminate].
      injection Hu as <-. split; [exact Heq | reflexivity].
    + injection Hu as <-. split; reflexivity.
  - intros [_ (uri' & baseUrl' & [= <-] & [= <-] & Hhost & ->)].
    destruct (Spec.isDirect uri); [|reflexivity].
    rewrite Hhost, String.eqb_refl. reflexivity.
Qed.

(** An error token, or the end of the stream, ends the scan with what has
    been collected. *)
Lemma scan_stops_at_error (baseUrl : string) (page rest : list Token)
    (data : string) (attrs : list Attribute) (resourceMap linkMap : gmap string bool) :
  scan baseUrl (page ++ mkToken ErrorToken data attrs :: rest) resourceMap linkMap
  = scan baseUrl page resourceMap linkMap.
Proof.
  revert resourceMap linkMap.
  induction page as [|token page IH]; intros resourceMap linkMap; simpl.
  - reflexivity.
  - destruct (bool_decide (Type_ token = ErrorToken)); [reflexivity|].
    destruct (isResourceToken token).
    + destruct (processResourceToken token); apply IH.
    + destruct (isLinkToken token); [|apply IH].
      destruct (processLinkToken token baseUrl); apply IH.
Qed.

(** The guard of [processResourceToken], case by case. *)
Lemma ignoredResource_false (uri : url.URL) :
  url.Scheme uri <> "" -> url.Scheme uri <> "https" -> ~ Spec.schemeRelative uri ->
  ignoredResource uri = false.
Proof.
  intros Hs Hhttps Hrel. unfold ignoredResource, url.IsAbs.
  destruct (String.eqb_spec (url.Scheme uri) "") as [?|_]; [contradiction|].
  destruct (String.eqb_spec (url.Scheme uri) "https") as [?|_]; [contradiction|].
  cbn [negb orb].
  destruct (String.eqb_spec (url.Host uri) "") as [?|Hh]; [reflexivity|].
  destruct (HasPrefix (url.String_ uri) "//") eqn:Hp; [|reflexivity].
  exfalso. apply Hrel. split; assumption.
Qed.

Lemma ignoredResource_true (uri : url.URL) :
  url.Scheme uri = "" \/ url.Scheme uri = "https" \/ Spec.schemeRelative uri ->
  ignoredResource uri = true.
Proof.
  unfold ignoredResource, url.IsAbs.
  intros [-> | [-> | [Hh Hp]]]; [reflexivity | reflexivity |].
  rewrite Hp, andb_true_r.
  destruct (String.eqb_spec (url.Host uri) "") as [?|_]; [contradiction|].
  apply orb_true_r.
Qed.

(** The attribute loop of [processResourceToken] writes only under the keys
    of the attributes it visits. *)
Lemma resourceAttr_other_keys (token : Token) (key : string) (attrs : list Attribute) :
  forall result : gmap string string,
    (forall a, a ∈ attrs -> Key a <> key) ->
    foldl (resourceAttr token) result attrs !! key = result !! key.
Proof.
  induction attrs as [|attr attrs IH]; intros result Hkeys; simpl; [reflexivity|].
  rewrite IH by (intros a Ha; apply Hkeys; right; exact Ha).
  assert (Hattr : Key attr <> key) by (apply Hkeys; left).
  unfold resourceAttr.
  destruct (negb (isTargetedResourceTokenAttribute token attr)); [reflexivity|].
  destruct (url.Parse (Val attr)) as [uri|e]; [|reflexivity].
  destruct (ignoredResource uri); [reflexivity|].
  apply lookup_insert_ne. exact Hattr.
Qed.

(** Every entry of the map comes from a targeted attribute. *)
Lemma resourceAttr_fromAttribute (token : Token) (attrs : list Attribute) :
  forall result : gmap string string,
    (forall a, a ∈ attrs -> a ∈ Attr token) ->
    (forall key u, result !! key = Some u -> Spec.fromAttribute token key u) ->
    forall key u, foldl (resourceAttr token) result attrs !! key = Some u ->
                  Spec.fromAttribute token key u.
Proof.
  induction attrs as [|attr attrs IH]; intros result Hin Hres key u; simpl.
  - apply Hres.
  - apply IH.
    + intros a Ha. apply Hin. right. exact Ha.
    + intros key' u'. unfold resourceAttr.
      destruct (isTargetedResourceTokenAttribute token attr) eqn:Ht; simpl; [|apply Hres].
      destruct (url.Parse (Val attr)) as [uri|e] eqn:Hp; [|apply Hres].
      destruct (ignoredResource uri) eqn:Hi; [apply Hres|].
      rewrite lookup_insert. case_decide as Hk.
      * intros [= <-]. exists attr, uri. repeat split; try assumption.
        apply Hin. left.
      * apply Hres.
Qed.

(** What is reported under a key is what the attribute loop has stored
    there: the error for an empty map reports nothing. *)
Lemma reported_lookup (token : Token) (key : string) :
  Spec.reported token key = foldl (resourceAttr token) ∅ (Attr token) !! key.
Proof.
  unfold Spec.reported, processResourceToken.
  destruct (Nat.eqb_spec (size (foldl (resourceAttr token) ∅ (Attr token))) 0) as [H0|_];
    [|reflexivity].
  apply map_size_empty_iff in H0. rewrite H0, lookup_empty. reflexivity.
Qed.

(** The entry of an attribute whose key no other attribute of the tag has. *)
Lemma reported_unique_key (token : Token) (before after : list Attribute)
    (attr : Attribute) :
  Attr token = (before ++ attr :: after)%list ->
  (forall a, a ∈ (before ++ after)%list -> Key a <> Key attr) ->
  Spec.reported token (Key attr) = resourceAttr token ∅ attr !! Key attr.
Proof.
  intros Hattrs Hkeys. rewrite reported_lookup, Hattrs, foldl_app. cbn [foldl].
  rewrite resourceAttr_other_keys
    by (intros a Ha; apply Hkeys, elem_of_app; right; exact Ha).
  pose proof (resourceAttr_other_keys token (Key attr) before ∅
                (fun a Ha => Hkeys a (proj2 (elem_of_app _ _ _) (or_introl Ha)))) as Hbefore.
  rewrite lookup_empty in Hbefore.
  unfold resourceAttr.
  destruct (negb (isTargetedResourceTokenAttribute token attr));
    [rewrite lookup_empty; exact Hbefore|].
  destruct (url.Parse (Val attr)) as [uri|e]; [|rewrite lookup_empty; exact Hbefore].
  destruct (ignoredResource uri); [rewrite lookup_empty; exact Hbefore|].
  rewrite !lookup_insert_eq. reflexivity.
Qed.

End Scanner.

(** ** The claims on the page scanner *)
Section ScannerClaims.
Import strings html ResourceAndLinkFinder.
Context {L : url.Lib}.

(** C2 (amended).  An image token is resource-bearing exactly when it is a
    self-closing tag token: then the scan collects what
    [processResourceToken] finds in its targeted attributes; an image that
    is an ordinary start tag token is neither a resource token nor a link
    token, and the scan passes over it. *)
Theorem C2_image_resource_iff_self_closing (token : Token) (baseUrl : string)
    (page : list Token) (resourceMap linkMap : gmap string bool) :
  Data token = "img" ->
  (isResourceToken token = true <-> Type_ token = SelfClosingTagToken)
  /\ (Type_ token = SelfClosingTagToken ->
      scan baseUrl (token :: page) resourceMap linkMap =
      match processResourceToken token with
      | Ok uris => scan baseUrl page (addAll uris resourceMap) linkMap
      | Err _ => scan baseUrl page resourceMap linkMap
      end)
  /\ (Type_ token = StartTagToken ->
      scan baseUrl (token :: page) resourceMap linkMap
      = scan baseUrl page resourceMap linkMap).
Proof.
  intros Himg.
  assert (Hres : isResourceToken token = bool_decide (Type_ token = SelfClosingTagToken)).
  { unfold isResourceToken. rewrite Himg. destruct (Type_ token); reflexivity. }
  assert (Hlink : isLinkToken token = false).
  { unfold isLinkToken. rewrite Himg. apply andb_false_r. }
  split; [|split].
  - rewrite Hres. apply bool_decide_eq_true.
  - intros Hty. simpl. rewrite Hres, Hty. reflexivity.
  - intros Hty. simpl. rewrite Hres, Hlink, Hty. reflexivity.
Qed.

(** C3 (amended).  An accepted link is the string of its target (the parsed
    candidate, or its resolution against the base) with exactly one
    trailing "/" stripped if present.  An accepted resource is the string
    of the parsed attribute value as it is: nothing is stripped. *)
Theorem C3_links_stripped_resources_verbatim :
  (forall token base u,
      processLinkToken token base = Ok u ->
      exists val uri baseUrl,
        Spec.href token = Some val /\ url.Parse val = Ok uri
        /\ url.Parse base = Ok baseUrl
        /\ u = TrimSuffix (url.String_ (Spec.linkTarget baseUrl uri)) "/"
        /\ (url.String_ (Spec.linkTarget baseUrl uri) = u ++ "/"
            \/ (HasSuffix (url.String_ (Spec.linkTarget baseUrl uri)) "/" = false
                /\ url.String_ (Spec.linkTarget baseUrl uri) = u)))
  /\ (forall token uris key u,
        processResourceToken token = Ok uris ->
        uris !! key = Some u ->
        exists attr uri,
          attr ∈ Attr token /\ Key attr = key
          /\ url.Parse (Val attr) = Ok uri /\ u = url.String_ uri).
Proof.
  split.
  - intros token base u. rewrite processLinkToken_href.
    destruct (Spec.href token) as [val|] eqn:Hhref; [|discriminate].
    intros Hu. apply processHref_Ok in Hu as (_ & uri & baseUrl & Huri & Hbase & _ & Heq).
    exists val, uri, baseUrl. do 3 (split; [first [reflexivity | assumption]|]).
    split; [exact Heq|]. rewrite Heq.
    destruct (TrimSuffix_cases (url.String_ (Spec.linkTarget baseUrl uri)) "/")
      as [H|[H1 H2]]; [left; exact H | right; split; [exact H1 | symmetry; exact H2]].
  - intros token uris key u. unfold processResourceToken.
    destruct (Nat.eqb _ 0); [discriminate|]. intros [= <-] Hlookup.
    assert (Hempty : forall k v, (∅ : gmap string string) !! k = Some v ->
                                 Spec.fromAttribute token k v).
    { intros k v H. rewrite lookup_empty in H. discriminate. }
    destruct (resourceAttr_fromAttribute token (Attr token) ∅
                (fun a Ha => Ha) Hempty key u Hlookup)
      as (attr & uri & Hin & Hkey & _ & Hparse & _ & Hu).
    exists attr, uri. repeat split; assumption.
Qed.

(** C4 (amended).  For a targeted attribute of a resource tag (its key not
    repeated on the tag): its value is reported, as the string of the parsed
    url, when it parses to a url that has a scheme (is absolute), whose
    scheme is not "https", and that is not of the scheme-relative form;
    every other value is not reported.  The scheme need not be "http". *)
Theorem C4_insecure_resource_iff_scheme_not_https
    (token : Token) (before after : list Attribute) (attr : Attribute) :
  Attr token = (before ++ attr :: after)%list ->
  (forall a, a ∈ (before ++ after)%list -> Key a <> Key attr) ->
  isTargetedResourceTokenAttribute token attr = true ->
  (forall uri, url.Parse (Val attr) = Ok uri ->
               url.Scheme uri <> "" -> url.Scheme uri <> "https" ->
               ~ Spec.schemeRelative uri ->
               Spec.reported token (Key attr) = Some (url.String_ uri))
  /\ (forall uri, url.Parse (Val attr) = Ok uri ->
                  url.Scheme uri = "" \/ url.Scheme uri = "https"
                  \/ Spec.schemeRelative uri ->
                  Spec.reported token (Key attr) = None)
  /\ (forall e, url.Parse (Val attr) = Err e ->
                Spec.reported token (Key attr) = None).
Proof.
  intros Hattrs Hkeys Ht.
  rewrite (reported_unique_key token before after attr Hattrs Hkeys).
  unfold resourceAttr. rewrite Ht. cbn [negb].
  split; [|split].
  - intros uri -> Hs Hhttps Hrel.
    rewrite (ignoredResource_false uri Hs Hhttps Hrel). apply lookup_insert_eq.
  - intros uri -> Hcases. rewrite (ignoredResource_true uri Hcases). apply lookup_empty.
  - intros e ->. apply lookup_empty.
Qed.

(** C5 (what the program does).  An anchor whose [href] is scheme-relative
    (it parses with no scheme and a host, and is written //host...) and
    whose host equals the base's once a leading "www." is ignored is
    accepted, and what is returned is the candidate's own text with one
    trailing "/" stripped: it is not resolved against the base.  On the base
    https://www.example.com, href="//example.com/x/" gives "//example.com/x",
    which parses without a scheme and so is not an absolute url, where the
    resolution against the base is https://example.com/x/.  With a scheme,
    as in the specification's example href="https://example.com/page/", the
    link returned is absolute. *)
Theorem C5_scheme_relative_link_not_resolved (token : Token) (base val : string)
    (uri baseUrl : url.URL) :
  (Spec.href token = Some val ->
   HasPrefix val "#" = false ->
   url.Parse val = Ok uri ->
   url.Parse base = Ok baseUrl ->
   url.Scheme uri = "" ->
   url.Host uri <> "" ->
   HasPrefix (url.String_ uri) "//" = true ->
   Spec.stripWWW (url.Host uri) = Spec.stripWWW (url.Host baseUrl) ->
   processLinkToken token base = Ok (TrimSuffix (url.String_ uri) "/"))
  /\ processLinkToken (L:=GoURL.lib) Example2.anchorSchemeRelative "https://www.example.com"
     = Ok "//example.com/x"
  /\ url.Parse (Lib:=GoURL.lib) "//example.com/x"
     = Ok (url.mkURL "" "" None "example.com" "/x" false false "" "")
  /\ url.IsAbs (url.mkURL "" "" None "example.com" "/x" false false "" "") = false
  /\ url.String_ (Lib:=GoURL.lib)
       (url.ResolveReference (Lib:=GoURL.lib)
          (url.mkURL "https" "" None "www.example.com" "" false false "" "")
          (url.mkURL "" "" None "example.com" "/x/" false false "" ""))
     = "https://example.com/x/"
  /\ processLinkToken (L:=GoURL.lib) Example.anchorPage "https://www.example.com"
     = Ok "https://example.com/page".
Proof.
  split; [|repeat split].
  intros Hhref Hanchor Huri Hbase Hscheme Hhost Hprefix Hsame.
  rewrite processLinkToken_href, Hhref.
  rewrite (processHref_parsed val base uri baseUrl Hanchor Huri Hbase).
  unfold Spec.isDirect. rewrite Hscheme, Hprefix.
  destruct (String.eqb_spec (url.Host uri) "") as [?|_]; [contradiction|].
  cbn. rewrite Hsame, String.eqb_refl. reflexivity.
Qed.

(** C10 (amended).  For an anchor token whose [href] value does not start
    with "#" and parses to a reference with neither a scheme nor a host,
    and a base that parses: the classifier makes no host comparison and
    accepts the candidate as its resolution against the base, with one
    trailing "/" stripped.  In particular href="" on the page
    https://example.com/a is accepted as https://example.com/a, which the
    scan returns among the links of the page. *)
Theorem C10_relative_link_accepted (token : Token) (base val : string)
    (uri baseUrl : url.URL) :
  (Spec.href token = Some val ->
   HasPrefix val "#" = false ->
   url.Parse val = Ok uri ->
   url.Scheme uri = "" ->
   url.Host uri = "" ->
   url.Parse base = Ok baseUrl ->
   processLinkToken token base
   = Ok (TrimSuffix (url.String_ (url.ResolveReference baseUrl uri)) "/"))
  /\ processLinkToken (L:=GoURL.lib) Example.anchorEmpty "https://example.com/a"
     = Ok "https://example.com/a"
  /\ Parse (L:=GoURL.lib) "https://example.com/a" [Example.anchorEmpty]
     = Ok ([], ["https://example.com/a"]).
Proof.
  split; [|split; reflexivity].
  intros Hhref Hanchor Huri Hscheme Hhost Hbase.
  rewrite processLinkToken_href, Hhref.
  rewrite (processHref_parsed val base uri baseUrl Hanchor Huri Hbase).
  unfold Spec.isDirect. rewrite Hscheme, Hhost. reflexivity.
Qed.

End ScannerClaims.

(** ** The scheduler *)
Section Scheduler.
Import main.


(** The loop of [crawl] never writes to the registry. *)
Lemma select_registry (ev : Event) (st : State) :
  registry (select ev st) = registry st.
Proof.
  destruct ev as [url|]; simpl.
  - destruct (IsNew (registry st) url); reflexivity.
  - destruct (flag st); reflexivity.
Qed.

Lemma select_Arrival_new (url : string) (st : State) :
  IsNew (registry st) url = true ->
  dispatched (select (Arrival url) st) = (dispatched st ++ [url])%list.
Proof. intros H. simpl. rewrite H. reflexivity. Qed.

Lemma select_Arrival_flag (url : string) (st : State) :
  flag (select (Arrival url) st) = false
  /\ returned (select (Arrival url) st) = returned st.
Proof. simpl. destruct (IsNew (registry st) url); split; reflexivity. Qed.

Lemma select_Tick_first (st : State) :
  flag st = false ->
  returned (select Tick st) = returned st /\ flag (select Tick st) = true.
Proof. intros H. simpl. rewrite H. split; reflexivity. Qed.

Lemma select_Tick_second (st : State) :
  flag st = true -> returned (select Tick st) = true.
Proof. intros H. simpl. rewrite H. reflexivity. Qed.

Lemma loop_returned (events : list Event) (st : State) :
  returned st = true -> loop events st = st.
Proof. intros H. destruct events; simpl; [|rewrite H]; reflexivity. Qed.

(** When the loop of [crawl] has returned, in terms of its events. *)
Lemma loop_returned_iff (events : list Event) :
  forall st, returned st = false ->
             returned (loop events st)
             = (flag st && Spec.startsWithTick events) || Spec.twoAdjacentTicks events.
Proof.
  induction events as [|ev events IH]; intros st Hrun.
  - simpl. rewrite Hrun, andb_false_r. reflexivity.
  - cbn [loop]. rewrite Hrun. destruct ev as [url|].
    + destruct (select_Arrival_flag url st) as [Hf Hr].
      rewrite IH by (rewrite Hr; exact Hrun). rewrite Hf, andb_false_r. reflexivity.
    + destruct (flag st) eqn:Hflag.
      * rewrite loop_returned by (apply select_Tick_second; exact Hflag). simpl.
        rewrite Hflag. reflexivity.
      * destruct (select_Tick_first st Hflag) as [Hr Hf].
        rewrite IH by (rewrite Hr; exact Hrun). rewrite Hf.
        destruct events as [|[url|] events]; reflexivity.
Qed.

Lemma twoAdjacentTicks_iff (events : list Event) :
  Spec.twoAdjacentTicks events = true
  <-> exists before after, events = (before ++ Tick :: Tick :: after)%list.
Proof.
  induction events as [|ev events IH].
  - split; [discriminate|]. intros (before & after & H). destruct before; discriminate.
  - assert (Hstep : Spec.twoAdjacentTicks (ev :: events)
                    = (match ev with Tick => Spec.startsWithTick events | _ => false end)
                      || Spec.twoAdjacentTicks events).
    { destruct ev; [reflexivity|]. destruct events as [|[|] events]; reflexivity. }
    rewrite Hstep. rewrite orb_true_iff, IH. split.
    + intros [H | (before & after & ->)].
      * destruct ev; [discriminate|]. destruct events as [|[|] events]; try discriminate.
        exists [], events. reflexivity.
      * exists (ev :: before), after. reflexivity.
    + intros (before & after & H). destruct before as [|b before].
      * injection H as -> ->. left. reflexivity.
      * injection H as -> ->. right. exists before, after. reflexivity.
Qed.

(** C1 (what the program does).  The loop of [crawl] checks [IsNew] and
    launches the goroutine; the url is marked only when that goroutine
    runs.  So a url that arrives twice before its goroutine has run is
    dispatched twice: in general for two arrivals in a row, and on the
    example site along an execution of the program from [crawl], after which
    both goroutines fetch the page. *)
Theorem C1_same_url_dispatched_twice :
  (forall st url,
      IsNew (registry st) url = true ->
      dispatched (select (Arrival url) (select (Arrival url) st))
      = (dispatched st ++ [url; url])%list)
  /\ (exists st,
        run Example.Fetch Example.schedule (crawl Example.seed) = Some st
        /\ dispatched st
           = [Example.seed; Example.pageA; Example.pageB; Example.pageA]
        /\ goroutines st
           = [Finished Example.seed; Launched Example.pageA;
              Finished Example.pageB; Launched Example.pageA]
        /\ IsNew (registry st) Example.pageA = true)
  /\ (exists st,
        run Example.Fetch (Example.schedule ++ [Run 1; Run 3]) (crawl Example.seed)
        = Some st
        /\ goroutines st
           = [Finished Example.seed; Finished Example.pageA;
              Finished Example.pageB; Finished Example.pageA]).
Proof.
  split; [|split].
  - intros st url Hnew.
    rewrite select_Arrival_new by (rewrite select_registry; exact Hnew).
    rewrite select_Arrival_new by exact Hnew.
    rewrite <- app_assoc. reflexivity.
  - eexists. split; [vm_compute; reflexivity|]. vm_compute. repeat split; reflexivity.
  - eexists. split; [vm_compute; reflexivity|]. reflexivity.
Qed.

Lemma true_elem_of_existsb (l : list bool) : existsb id l = true <-> true ∈ l.
Proof.
  induction l as [|b l IH]; simpl.
  - split; [discriminate|]. intros H. inversion H.
  - rewrite orb_true_iff, IH, elem_of_cons. unfold id. split.
    + intros [->|H]; [left; reflexivity | right; exact H].
    + intros [<-|H]; [left; reflexivity | right; exact H].
Qed.

Lemma twoAdjacentTicks_cons (ev : Event) (events : list Event) :
  Spec.twoAdjacentTicks (ev :: events)
  = (match ev with Tick => Spec.startsWithTick events | _ => false end)
    || Spec.twoAdjacentTicks events.
Proof. destruct ev; [reflexivity|]. destruct events as [|[|] events]; reflexivity. Qed.

(** Two adjacent ticks, in terms of the polling intervals: some interval
    without arrival is completed, the interval under way at the start not
    counted when an arrival has fallen into it. *)
Lemma silent_interval_adjacent_ticks (events : list Event) :
  existsb id (Spec.intervals false events) = Spec.twoAdjacentTicks events
  /\ existsb id (Spec.intervals true events)
     = Spec.startsWithTick events || Spec.twoAdjacentTicks events.
Proof.
  induction events as [|ev events [IHf IHt]]; [split; reflexivity|].
  rewrite twoAdjacentTicks_cons. destruct ev as [url|]; cbn [Spec.intervals existsb id].
  - split; exact IHf.
  - split; [exact IHt|]. cbn [Spec.startsWithTick orb]. reflexivity.
Qed.

Lemma tail_intervals_adjacent_ticks (events : list Event) :
  forall silent,
    existsb id (tail (Spec.intervals silent events)) = Spec.twoAdjacentTicks events.
Proof.
  induction events as [|ev events IH]; intros silent; [reflexivity|].
  rewrite twoAdjacentTicks_cons. destruct ev as [url|]; cbn [Spec.intervals tail].
  - apply IH.
  - apply silent_interval_adjacent_ticks.
Qed.

Lemma twoConsecutiveSilent_tail (silences : list bool) :
  Spec.twoConsecutiveSilent silences = true -> true ∈ tail silences.
Proof.
  induction silences as [|b silences IH]; [discriminate|].
  destruct silences as [|b' silences]; [destruct b; discriminate|].
  destruct b, b'; cbn [Spec.twoConsecutiveSilent tail]; intros H;
    try (left; fail); right; apply IH; exact H.
Qed.

(** C6 (amended).  The loop of [crawl], started by [crawl] on any seed, has
    returned (Terminated) after a sequence of events exactly when the
    sequence holds two ticks with no queue arrival between them: that is,
    when one polling interval other than the first has elapsed without
    arrival, whether or not the interval before it had one.  Two consecutive
    silent intervals are therefore enough, and not needed.  A tick that finds
    no silence noted leaves the loop running and notes one, also right after
    an arrival; a tick that finds a silence noted terminates it; a queue
    arrival resets the noted silence; so the loop never terminates while an
    arrival separates every two ticks. *)
Theorem C6_terminates_iff_two_adjacent_ticks (url : string) (events : list Event) :
  (returned (loop events (crawl url)) = true
   <-> exists before after, events = (before ++ Tick :: Tick :: after)%list)
  /\ (returned (loop events (crawl url)) = true
      <-> true ∈ tail (Spec.intervals true events))
  /\ (Spec.twoSilentIntervals events = true ->
      returned (loop events (crawl url)) = true)
  /\ (forall st, returned st = false -> flag st = false ->
                 returned (select Tick st) = false /\ flag (select Tick st) = true)
  /\ (forall st arrived,
        returned st = false ->
        returned (select Tick (select (Arrival arrived) st)) = false
        /\ flag (select Tick (select (Arrival arrived) st)) = true)
  /\ (forall st, returned st = false -> flag st = true ->
                 returned (select Tick st) = true)
  /\ (forall st arrived, flag (select (Arrival arrived) st) = false
                         /\ returned (select (Arrival arrived) st) = returned st)
  /\ (Spec.twoAdjacentTicks events = false ->
      returned (loop events (crawl url)) = false).
Proof.
  assert (Hloop : returned (loop events (crawl url)) = Spec.twoAdjacentTicks events).
  { rewrite loop_returned_iff by reflexivity. reflexivity. }
  assert (Htail : Spec.twoAdjacentTicks events = true
                  <-> true ∈ tail (Spec.intervals true events)).
  { rewrite <- (tail_intervals_adjacent_ticks events true). apply true_elem_of_existsb. }
  assert (Hfirst : forall st, returned st = false -> flag st = false ->
                     returned (select Tick st) = false /\ flag (select Tick st) = true).
  { intros st Hrun Hflag. destruct (select_Tick_first st Hflag) as [Hr Hf].
    split; [rewrite Hr; exact Hrun | exact Hf]. }
  split; [|split; [|split; [|split; [|split; [|split; [|split]]]]]].
  - rewrite Hloop. apply twoAdjacentTicks_iff.
  - rewrite Hloop. exact Htail.
  - intros Htwo. rewrite Hloop. apply Htail.
    apply twoConsecutiveSilent_tail. exact Htwo.
  - exact Hfirst.
  - intros st arrived Hrun. destruct (select_Arrival_flag arrived st) as [Hf Hr].
    apply Hfirst; [rewrite Hr; exact Hrun | exact Hf].
  - intros st _ Hflag. apply select_Tick_second. exact Hflag.
  - intros st arrived. apply select_Arrival_flag.
  - intros H. rewrite Hloop. exact H.
Qed.

Section WithFetcher.
Variable Fetch : string -> result (list string * list string).

(** C8 (amended).  Without a start url argument the process prints the
    usage message and exits with code 1 before any crawling.  With an
    argument, whatever its form, [main] hands it to [crawl] unchecked:
    the process exits only when the crawl has completed, and then with
    code 0; and the crawl can always complete. *)
Theorem C8_exit_codes (args : list string) (schedule : list Action) :
  (args = [] ->
   main Fetch args schedule
   = Exited 1 [Line "Please specify the HTTPS address of the site, e.g. https://example.com"])
  /\ (forall arg rest,
        args = arg :: rest ->
        (forall code out,
            main Fetch args schedule = Exited code out ->
            code = 0
            /\ exists st, run Fetch schedule (crawl arg) = Some st
                          /\ returned st = true /\ out = output st)
        /\ (forall st, run Fetch schedule (crawl arg) = Some st ->
                       returned st = true ->
                       main Fetch args schedule = Exited 0 (output st))
        /\ exists out, main Fetch args [Timer; Timer] = Exited 0 out).
Proof.
  split.
  - intros ->. reflexivity.
  - intros arg rest ->. unfold main. cbn [startUrl length Nat.ltb Nat.leb nth].
    split; [|split].
    + intros code out.
      destruct (run Fetch schedule (crawl arg)) as [st|]; [|discriminate].
      destruct (returned st) eqn:Hret; [|discriminate].
      intros [= <- <-]. split; [reflexivity|]. exists st. repeat split. exact Hret.
    + intros st -> ->. reflexivity.
    + eexists. reflexivity.
Qed.

(** C9 (what the program does).  When the fetch of a launched url fails,
    its goroutine marks the url, prints nothing (neither a report nor the
    error), sends nothing on the queue and is finished; the loop of
    [crawl] is left as it was and can still terminate. *)
Theorem C9_failed_fetch_contributes_nothing (st : State) (i : nat)
    (url err : string) :
  returned st = false ->
  goroutines st !! i = Some (Launched url) ->
  Fetch url = Err err ->
  exists st',
    step Fetch (Run i) st = Some st'
    /\ output st' = output st
    /\ goroutines st' = <[i := Finished url]> (goroutines st)
    /\ dispatched st' = dispatched st
    /\ flag st' = flag st
    /\ returned st' = false
    /\ registry st' = MarkAsProcessed (registry st) url
    /\ exists schedule st'',
        run Fetch schedule st' = Some st'' /\ returned st'' = true.
Proof.
  intros Hrun Hg Hfetch. unfold step, fetchUrl. rewrite Hrun, Hg, Hfetch.
  eexists. split; [reflexivity|].
  cbn [setGoroutine output goroutines dispatched flag returned registry].
  do 6 (split; [reflexivity|]).
  destruct (flag st) eqn:Hflag.
  - eexists [Timer], _. split; reflexivity.
  - eexists [Timer; Timer], _. split; reflexivity.
Qed.

End WithFetcher.
End Scheduler.

(** ** The theorems on concrete inputs *)
Section Examples.
Import strings html ResourceAndLinkFinder main.
Existing Instance GoURL.lib.

Lemma C1_witness :
  IsNew (registry (crawl Example.seed)) Example.pageA = true
  /\ dispatched (select (Arrival Example.pageA)
                   (select (Arrival Example.pageA) (crawl Example.seed)))
     = [Example.seed; Example.pageA; Example.pageA].
Proof.
  split; [reflexivity|].
  exact (proj1 C1_same_url_dispatched_twice (crawl Example.seed) Example.pageA eq_refl).
Defined.

Lemma C2_witness :
  Data Example.imgClosed = "img"
  /\ (isResourceToken Example.imgClosed = true
      <-> Type_ Example.imgClosed = SelfClosingTagToken).
Proof.
  split; [reflexivity|].
  exact (proj1 (C2_image_resource_iff_self_closing
                  Example.imgClosed "https://example.com" [] ∅ ∅ eq_refl)).
Defined.

(** An image written as an ordinary start tag is not a resource token, and
    a page that holds it yields no insecure resource. *)
Lemma C2_counterexample :
  Data Example.imgStart = "img"
  /\ Type_ Example.imgStart = StartTagToken
  /\ isResourceToken Example.imgStart = false
  /\ Parse "https://example.com" [Example.imgStart] = Ok ([], []).
Proof. repeat split. Qed.

Lemma C3_witness :
  exists val uri baseUrl,
    Spec.href Example.anchorPage = Some val /\ url.Parse val = Ok uri
    /\ url.Parse "https://www.example.com" = Ok baseUrl
    /\ "https://example.com/page"
       = TrimSuffix (url.String_ (Spec.linkTarget baseUrl uri)) "/"
    /\ (url.String_ (Spec.linkTarget baseUrl uri) = "https://example.com/page" ++ "/"
        \/ (HasSuffix (url.String_ (Spec.linkTarget baseUrl uri)) "/" = false
            /\ url.String_ (Spec.linkTarget baseUrl uri) = "https://example.com/page")).
Proof.
  exact (proj1 C3_links_stripped_resources_verbatim
               Example.anchorPage "https://www.example.com" "https://example.com/page"
               eq_refl).
Defined.

(** The resource url "http://cdn.example.com/" is reported with its
    trailing "/", not as the stripped "http://cdn.example.com". *)
Lemma C3_counterexample :
  processResourceToken Example.imgSlash = Ok {[ "src" := "http://cdn.example.com/" ]}
  /\ Parse "https://example.com" [Example.imgSlash] = Ok (["http://cdn.example.com/"], [])
  /\ TrimSuffix "http://cdn.example.com/" "/" = "http://cdn.example.com"
  /\ "http://cdn.example.com/" <> TrimSuffix "http://cdn.example.com/" "/".
Proof. repeat split. discriminate. Qed.

Lemma C4_witness :
  Attr Example.imgFtp = ([] ++ mkAttr "src" "ftp://example.com/x.jpg" :: [])%list
  /\ isTargetedResourceTokenAttribute Example.imgFtp (mkAttr "src" "ftp://example.com/x.jpg")
     = true
  /\ url.Parse "ftp://example.com/x.jpg"
     = Ok (url.mkURL "ftp" "" None "example.com" "/x.jpg" false false "" "")
  /\ Spec.reported Example.imgFtp "src" = Some "ftp://example.com/x.jpg".
Proof.
  assert (Hparse : url.Parse "ftp://example.com/x.jpg"
                   = Ok (url.mkURL "ftp" "" None "example.com" "/x.jpg" false false "" ""))
    by reflexivity.
  assert (Hkeys : forall a : Attribute, a ∈ ([] ++ [])%list -> Key a <> "src").
  { intros a Ha. inversion Ha. }
  assert (Hrel : ~ Spec.schemeRelative
                   (url.mkURL "ftp" "" None "example.com" "/x.jpg" false false "" "")).
  { intros [_ H]. discriminate H. }
  split; [reflexivity|]. split; [reflexivity|]. split; [exact Hparse|].
  refine (proj1 (C4_insecure_resource_iff_scheme_not_https
                   Example.imgFtp [] [] (mkAttr "src" "ftp://example.com/x.jpg")
                   eq_refl Hkeys eq_refl)
                _ Hparse _ _ Hrel); discriminate.
Defined.

(** A value whose scheme is "ftp", not "http", is reported. *)
Lemma C4_counterexample :
  processResourceToken Example.imgFtp = Ok {[ "src" := "ftp://example.com/x.jpg" ]}
  /\ Parse "https://example.com" [Example.imgFtp] = Ok (["ftp://example.com/x.jpg"], [])
  /\ url.Parse "ftp://example.com/x.jpg"
     = Ok (url.mkURL "ftp" "" None "example.com" "/x.jpg" false false "" "")
  /\ "ftp" <> "http".
Proof. repeat split. discriminate. Qed.

Lemma C5_witness :
  Spec.href Example2.anchorSchemeRelative = Some "//example.com/x/"
  /\ url.Parse "//example.com/x/"
     = Ok (url.mkURL "" "" None "example.com" "/x/" false false "" "")
  /\ url.Parse "https://www.example.com"
     = Ok (url.mkURL "https" "" None "www.example.com" "" false false "" "")
  /\ processLinkToken Example2.anchorSchemeRelative "https://www.example.com"
     = Ok (TrimSuffix "//example.com/x/" "/").
Proof.
  assert (Hval : url.Parse "//example.com/x/"
                 = Ok (url.mkURL "" "" None "example.com" "/x/" false false "" ""))
    by reflexivity.
  assert (Hbase : url.Parse "https://www.example.com"
                  = Ok (url.mkURL "https" "" None "www.example.com" "" false false "" ""))
    by reflexivity.
  split; [reflexivity|]. split; [exact Hval|]. split; [exact Hbase|].
  refine (proj1 (C5_scheme_relative_link_not_resolved
                   Example2.anchorSchemeRelative "https://www.example.com"
                   "//example.com/x/" _ _)
                eq_refl eq_refl Hval Hbase eq_refl _ eq_refl eq_refl).
  discriminate.
Defined.

Lemma C6_witness :
  returned (crawl Example.seed) = false
  /\ flag (crawl Example.seed) = false
  /\ returned (select Tick (crawl Example.seed)) = false
  /\ flag (select Tick (crawl Example.seed)) = true
  /\ Spec.twoSilentIntervals [Tick; Arrival Example.pageA; Tick; Tick; Tick] = true
  /\ returned (loop [Tick; Arrival Example.pageA; Tick; Tick; Tick] (crawl Example.seed))
     = true.
Proof.
  split; [reflexivity|]. split; [reflexivity|].
  pose proof (C6_terminates_iff_two_adjacent_ticks
                Example.seed [Tick; Arrival Example.pageA; Tick; Tick; Tick])
    as (_ & _ & Htwo & Hfirst & _).
  split; [exact (proj1 (Hfirst (crawl Example.seed) eq_refl eq_refl))|].
  split; [exact (proj2 (Hfirst (crawl Example.seed) eq_refl eq_refl))|].
  split; [reflexivity|]. exact (Htwo eq_refl).
Defined.

(** After an arrival, a tick and a second tick: the interval the first tick
    closes had an arrival, only the second interval is silent, and the loop
    has returned. *)
Lemma C6_counterexample :
  Spec.intervals true [Arrival Example.pageA; Tick; Tick] = [false; true]
  /\ Spec.twoSilentIntervals [Arrival Example.pageA; Tick; Tick] = false
  /\ returned (loop [Arrival Example.pageA; Tick; Tick] (crawl Example.seed)) = true.
Proof. repeat split. Qed.

Lemma C8_witness :
  main Example.Fetch [] [Timer; Timer]
  = Exited 1 [Line "Please specify the HTTPS address of the site, e.g. https://example.com"]
  /\ main Example.Fetch ["https://example.com"] [Run 0; Timer; Timer]
     = Exited 0 [Line "-----"; Line "log:";
                 Dump (MarkAsProcessed (mkRegistry ∅) "https://example.com")].
Proof.
  split.
  - exact (proj1 (C8_exit_codes Example.Fetch [] [Timer; Timer]) eq_refl).
  - refine (proj1 (proj2 (proj2 (C8_exit_codes Example.Fetch ["https://example.com"]
                                   [Run 0; Timer; Timer])
                            "https://example.com" [] eq_refl))
                  _ eq_refl eq_refl).
Defined.

(** The argument "example.com" is not an https address; the process crawls
    it all the same and exits with code 0. *)
Lemma C8_counterexample :
  ~ Spec.startUrlOk "example.com"
  /\ main Example.Fetch ["example.com"] [] = Crawling (crawl "example.com")
  /\ dispatched (crawl "example.com") = ["example.com"]
  /\ main Example.Fetch ["example.com"] [Run 0; Timer; Timer]
     = Exited 0 [Line "-----"; Line "log:";
                 Dump (MarkAsProcessed (mkRegistry ∅) "example.com")].
Proof.
  split; [|repeat split].
  intros (uri & Hparse & Hscheme & _). injection Hparse as <-. discriminate Hscheme.
Qed.

Lemma C9_witness :
  returned (crawl "https://down.example.com") = false
  /\ goroutines (crawl "https://down.example.com") !! 0
     = Some (Launched "https://down.example.com")
  /\ Example.Fetch "https://down.example.com" = Err "Get: no such host"
  /\ exists st',
      step Example.Fetch (Run 0) (crawl "https://down.example.com") = Some st'
      /\ output st' = []
      /\ goroutines st' = [Finished "https://down.example.com"].
Proof.
  do 3 (split; [reflexivity|]).
  destruct (C9_failed_fetch_contributes_nothing Example.Fetch
              (crawl "https://down.example.com") 0 "https://down.example.com"
              "Get: no such host" eq_refl eq_refl eq_refl)
    as (st' & Hstep & Hout & Hg & _).
  exists st'. split; [exact Hstep|]. split; [exact Hout | exact Hg].
Defined.

(** A relative link that keeps its query: href="list?page=2" on the page
    https://example.com/shop/index.html. *)
Lemma C10_witness :
  Spec.href (mkToken StartTagToken "a" [mkAttr "href" "list?page=2"]) = Some "list?page=2"
  /\ HasPrefix "list?page=2" "#" = false
  /\ url.Parse "list?page=2" = Ok (url.mkURL "" "" None "" "list" false false "page=2" "")
  /\ url.Parse "https://example.com/shop/index.html"
     = Ok (url.mkURL "https" "" None "example.com" "/shop/index.html" false false "" "")
  /\ processLinkToken (mkToken StartTagToken "a" [mkAttr "href" "list?page=2"])
       "https://example.com/shop/index.html"
     = Ok "https://example.com/shop/list?page=2".
Proof.
  assert (Hval : url.Parse "list?page=2"
                 = Ok (url.mkURL "" "" None "" "list" false false "page=2" ""))
    by reflexivity.
  assert (Hbase : url.Parse "https://example.com/shop/index.html"
                  = Ok (url.mkURL "https" "" None "example.com" "/shop/index.html"
                                  false false "" ""))
    by reflexivity.
  split; [reflexivity|]. split; [reflexivity|]. split; [exact Hval|]. split; [exact Hbase|].
  exact (proj1 (C10_relative_link_accepted
                  (mkToken StartTagToken "a" [mkAttr "href" "list?page=2"])
                  "https://example.com/shop/index.html" "list?page=2" _ _)
               eq_refl eq_refl Hval eq_refl eq_refl Hbase).
Defined.

(** The reference "#section" parses, with neither a scheme nor a host, and
    is rejected. *)
Lemma C10_counterexample :
  Spec.href Example.anchorSection = Some "#section"
  /\ url.Parse "#section" = Ok (url.mkURL "" "" None "" "" false false "" "section")
  /\ url.Parse "https://example.com"
     = Ok (url.mkURL "https" "" None "example.com" "" false false "" "")
  /\ processLinkToken Example.anchorSection "https://example.com"
     = Err "Url is an anchor. Skipped.".
Proof. repeat split. Qed.

End Examples.

(** * Further properties *)

(** ** The token loop of [Parse] *)
Section ScanFacts.
Import strings html ResourceAndLinkFinder.
Context {L : url.Lib}.

Lemma keys_elem_of (m : gmap string bool) (u : string) :
  u ∈ keys m <-> is_Some (m !! u).
Proof.
  unfold keys. rewrite list_elem_of_fmap. split.
  - intros ([k v] & -> & Hin). apply elem_of_map_to_list in Hin. eexists. exact Hin.
  - intros [v Hv]. exists (u, v). split; [reflexivity|]. apply elem_of_map_to_list. exact Hv.
Qed.

Lemma isResource_not_link (token : Token) :
  isResourceToken token = true -> isLinkToken token = false.
Proof.
  unfold isResourceToken, isLinkToken.
  destruct (Type_ token); simpl; try discriminate.
  - unfold mediaTags. simpl.
    destruct (String.eqb_spec (Data token) "a") as [->|_]; [discriminate|reflexivity].
  - intros _. reflexivity.
Qed.

Lemma scan_beforeError (baseUrl : string) (page : list Token)
    (resourceMap linkMap : gmap string bool) :
  scan baseUrl (Notions.beforeError page) resourceMap linkMap
  = scan baseUrl page resourceMap linkMap.
Proof.
  revert resourceMap linkMap.
  induction page as [|token page IH]; intros resourceMap linkMap; [reflexivity|].
  cbn [Notions.beforeError]. destruct (bool_decide (Type_ token = ErrorToken)) eqn:Hty.
  - simpl. rewrite Hty. reflexivity.
  - simpl. rewrite Hty.
    destruct (isResourceToken token).
    + destruct (processResourceToken token); apply IH.
    + destruct (isLinkToken token); [|apply IH].
      destruct (processLinkToken token baseUrl); apply IH.
Qed.

Lemma beforeError_no_error (page : list Token) :
  Forall (fun token => Type_ token <> ErrorToken) (Notions.beforeError page).
Proof.
  induction page as [|token page IH]; simpl; [constructor|].
  destruct (bool_decide_reflect (Type_ token = ErrorToken)); constructor; assumption.
Qed.

Lemma beforeError_app (page rest : list Token) :
  Forall (fun token => Type_ token <> ErrorToken) page ->
  Notions.beforeError (page ++ rest) = (page ++ Notions.beforeError rest)%list.
Proof.
  induction 1 as [|token page Hty _ IH]; simpl; [reflexivity|].
  rewrite bool_decide_eq_false_2 by exact Hty. rewrite IH. reflexivity.
Qed.

Lemma beforeError_subset (page : list Token) (token : Token) :
  token ∈ Notions.beforeError page -> token ∈ page.
Proof.
  induction page as [|t page IH]; simpl; [intros H; exact H|].
  destruct (bool_decide (Type_ t = ErrorToken)); [intros H; inversion H|].
  intros [->|H]%elem_of_cons; [left | right; apply IH, H].
Qed.

(** The urls [addAll] adds are the values of [uris]. *)
Lemma addAll_lookup (uris : gmap string string) (resourceMap : gmap string bool)
    (u : string) :
  is_Some (addAll uris resourceMap !! u)
  <-> is_Some (resourceMap !! u) \/ exists key, uris !! key = Some u.
Proof.
  unfold addAll.
  assert (Hlist : forall l : list (string * string),
             is_Some (foldr (fun kv m => <[kv.2 := true]> m) resourceMap l !! u)
             <-> is_Some (resourceMap !! u) \/ exists key, (key, u) ∈ l).
  { induction l as [|[k v] l IH]; simpl.
    - split; [intros H; left; exact H|].
      intros [H|(key & H)]; [exact H | inversion H].
    - rewrite lookup_insert. case_decide as Hv.
      + subst v. split; [|intros _; eexists; reflexivity].
        intros _. right. exists k. left.
      + rewrite IH. split.
        * intros [H|(key & H)]; [left; exact H | right; exists key; right; exact H].
        * intros [H|(key & H)]; [left; exact H|]. right. exists key.
          apply elem_of_cons in H as [[= -> ->]|H]; [congruence | exact H]. }
  rewrite Hlist. split.
  - intros [H|(key & H)]; [left; exact H|]. right. exists key.
    apply elem_of_map_to_list. exact H.
  - intros [H|(key & H)]; [left; exact H|]. right. exists key.
    apply elem_of_map_to_list. exact H.
Qed.

(** The link map after the loop: what it held, and the links of the link
    tokens visited. *)
Lemma scan_links (baseUrl : string) (page : list Token) (u : string) :
  forall resourceMap linkMap : gmap string bool,
    is_Some ((scan baseUrl page resourceMap linkMap).2 !! u)
    <-> is_Some (linkMap !! u)
        \/ exists token, token ∈ Notions.beforeError page
                         /\ isLinkToken token = true
                         /\ processLinkToken token baseUrl = Ok u.
Proof.
  induction page as [|token page IH]; intros resourceMap linkMap.
  { simpl. split; [intros H; left; exact H|]. intros [H|(t & H & _)]; [exact H | inversion H]. }
  cbn [scan Notions.beforeError].
  destruct (bool_decide (Type_ token = ErrorToken)).
  { simpl. split; [intros H; left; exact H|]. intros [H|(t & H & _)]; [exact H | inversion H]. }
  assert (Hskip : forall rm,
             (isLinkToken token = true -> is_Ok (processLinkToken token baseUrl) = false) ->
             is_Some ((scan baseUrl page rm linkMap).2 !! u)
             <-> is_Some (linkMap !! u)
                 \/ exists t, t ∈ token :: Notions.beforeError page
                              /\ isLinkToken t = true
                              /\ processLinkToken t baseUrl = Ok u).
  { intros rm Hno. rewrite IH. split.
    - intros [H|(t & Hin & Hl & Hp)]; [left; exact H|].
      right. exists t. split; [right; exact Hin | split; assumption].
    - intros [H|(t & Hin & Hl & Hp)]; [left; exact H|].
      apply elem_of_cons in Hin as [->|Hin].
      + specialize (Hno Hl). rewrite Hp in Hno. discriminate Hno.
      + right. exists t. split; [exact Hin | split; assumption]. }
  destruct (isResourceToken token) eqn:Hres.
  { pose proof (isResource_not_link token Hres) as Hnl.
    destruct (processResourceToken token); apply Hskip; rewrite Hnl; discriminate. }
  destruct (isLinkToken token) eqn:Hlink; [|apply Hskip; discriminate].
  destruct (processLinkToken token baseUrl) as [v|e] eqn:Hp;
    [|apply Hskip; intros _; first [reflexivity | rewrite Hp; reflexivity]].
  rewrite IH, lookup_insert. split.
  - intros [H|(t & Hin & Hl & Ht)].
    + case_decide as Hv; [|left; exact H].
      subst v. right. exists token. split; [left | split; assumption].
    + right. exists t. split; [right; exact Hin | split; assumption].
  - intros [H|(t & Hin & Hl & Ht)].
    + left. case_decide; [eexists; reflexivity | exact H].
    + apply elem_of_cons in Hin as [->|Hin].
      * left. rewrite Hp in Ht. injection Ht as ->. rewrite decide_True by reflexivity.
        eexists; reflexivity.
      * right. exists t. split; [exact Hin | split; assumption].
Qed.

(** The resource map after the loop: what it held, and what the resource
    tokens visited report. *)
Lemma scan_resources (baseUrl : string) (page : list Token) (u : string) :
  forall resourceMap linkMap : gmap string bool,
    is_Some ((scan baseUrl page resourceMap linkMap).1 !! u)
    <-> is_Some (resourceMap !! u)
        \/ exists token key, token ∈ Notions.beforeError page
                             /\ isResourceToken token = true
                             /\ Spec.reported token key = Some u.
Proof.
  induction page as [|token page IH]; intros resourceMap linkMap.
  { simpl. split; [intros H; left; exact H|].
    intros [H|(t & k & H & _)]; [exact H | inversion H]. }
  cbn [scan Notions.beforeError].
  destruct (bool_decide (Type_ token = ErrorToken)).
  { simpl. split; [intros H; left; exact H|].
    intros [H|(t & k & H & _)]; [exact H | inversion H]. }
  assert (Hskip : forall lm,
             (isResourceToken token = true -> forall key, Spec.reported token key = None) ->
             is_Some ((scan baseUrl page resourceMap lm).1 !! u)
             <-> is_Some (resourceMap !! u)
                 \/ exists t key, t ∈ token :: Notions.beforeError page
                                  /\ isResourceToken t = true
                                  /\ Spec.reported t key = Some u).
  { intros lm Hno. rewrite IH. split.
    - intros [H|(t & k & Hin & Hr & Hp)]; [left; exact H|].
      right. exists t, k. split; [right; exact Hin | split; assumption].
    - intros [H|(t & k & Hin & Hr & Hp)]; [left; exact H|].
      apply elem_of_cons in Hin as [->|Hin].
      + rewrite (Hno Hr k) in Hp. discriminate.
      + right. exists t, k. split; [exact Hin | split; assumption]. }
  destruct (isResourceToken token) eqn:Hres.
  2:{ destruct (isLinkToken token); [|apply Hskip; discriminate].
      destruct (processLinkToken token baseUrl); apply Hskip; discriminate. }
  destruct (processResourceToken token) as [uris|e] eqn:Hp.
  2:{ apply Hskip. intros _ key. unfold Spec.reported. rewrite Hp. reflexivity. }
  rewrite IH, addAll_lookup. split.
  - intros [[H|(key & Hkey)]|(t & k & Hin & Hr & Ht)].
    + left; exact H.
    + right. exists token, key. split; [left|]. split; [exact Hres|].
      unfold Spec.reported. rewrite Hp. exact Hkey.
    + right. exists t, k. split; [right; exact Hin | split; assumption].
  - intros [H|(t & k & Hin & Hr & Ht)]; [left; left; exact H|].
    apply elem_of_cons in Hin as [->|Hin].
    + left. right. exists k. unfold Spec.reported in Ht. rewrite Hp in Ht. exact Ht.
    + right. exists t, k. split; [exact Hin | split; assumption].
Qed.

Lemma resourcesOf_scan (baseUrl : string) (page : list Token) :
  Notions.resourcesOf baseUrl page = keys (scan baseUrl page ∅ ∅).1.
Proof.
  unfold Notions.resourcesOf, Parse. destruct (scan baseUrl page ∅ ∅); reflexivity.
Qed.

Lemma linksOf_scan (baseUrl : string) (page : list Token) :
  Notions.linksOf baseUrl page = keys (scan baseUrl page ∅ ∅).2.
Proof.
  unfold Notions.linksOf, Parse. destruct (scan baseUrl page ∅ ∅); reflexivity.
Qed.

Lemma beforeError_id (page : list Token) :
  Forall (fun token => Type_ token <> ErrorToken) page ->
  Notions.beforeError page = page.
Proof.
  intros H. pose proof (beforeError_app page [] H) as Happ.
  rewrite !app_nil_r in Happ. exact Happ.
Qed.


(** The attribute loop of [processResourceToken], one attribute at a time. *)
Lemma resourceAttr_accepted (token : Token) (result : gmap string string)
    (attr : Attribute) :
  resourceAttr token result attr
  = match Notions.accepted token attr with
    | Some u => <[Key attr := u]> result
    | None => result
    end.
Proof.
  unfold resourceAttr, Notions.accepted.
  destruct (isTargetedResourceTokenAttribute token attr); [|reflexivity].
  cbn [negb]. destruct (url.Parse (Val attr)) as [uri|e]; [|reflexivity].
  destruct (ignoredResource uri); reflexivity.
Qed.

Lemma last_cons_Some {A} (x : A) (l : list A) :
  last (x :: l) = match last l with Some y => Some y | None => Some x end.
Proof.
  revert x. induction l as [|a l IH]; intros x; [reflexivity|].
  change (last (x :: a :: l)) with (last (a :: l)).
  rewrite (IH a). destruct (last l); reflexivity.
Qed.

(** Under each key the loop keeps the value of the last attribute it has
    accepted with that key. *)
Lemma resourceAttr_last (token : Token) (key : string) (attrs : list Attribute) :
  forall result : gmap string string,
    foldl (resourceAttr token) result attrs !! key
    = match last (omap (Notions.acceptedUnder token key) attrs) with
      | Some u => Some u
      | None => result !! key
      end.
Proof.
  induction attrs as [|attr attrs IH]; intros result; [reflexivity|].
  cbn [foldl omap list_omap]. rewrite IH, resourceAttr_accepted.
  destruct (Notions.acceptedUnder token key attr) as [v|] eqn:Hacc;
    unfold Notions.acceptedUnder in Hacc;
    destruct (String.eqb_spec (Key attr) key) as [Hk|Hk]; try discriminate.
  - rewrite Hacc, last_cons_Some.
    destruct (last (omap (Notions.acceptedUnder token key) attrs)); [reflexivity|].
    rewrite Hk. apply lookup_insert_eq.
  - rewrite Hacc. reflexivity.
  - destruct (last (omap (Notions.acceptedUnder token key) attrs)); [reflexivity|].
    destruct (Notions.accepted token attr); [|reflexivity].
    apply lookup_insert_ne. exact Hk.
Qed.

Lemma ignoredResource_false_inv (uri : url.URL) :
  ignoredResource uri = false ->
  url.Scheme uri <> "" /\ url.Scheme uri <> "https" /\ ~ Spec.schemeRelative uri.
Proof.
  intros Hi. repeat split.
  - intros H. rewrite (ignoredResource_true uri (or_introl H)) in Hi. discriminate.
  - intros H. rewrite (ignoredResource_true uri (or_intror (or_introl H))) in Hi.
    discriminate.
  - intros H. rewrite (ignoredResource_true uri (or_intror (or_intror H))) in Hi.
    discriminate.
Qed.

(** What a resource token reports comes from one of its targeted
    attributes. *)
Lemma reported_fromAttribute (token : Token) (key u : string) :
  Spec.reported token key = Some u -> Spec.fromAttribute token key u.
Proof.
  rewrite reported_lookup. apply resourceAttr_fromAttribute.
  - intros a Ha. exact Ha.
  - intros k v H. rewrite lookup_empty in H. discriminate.
Qed.

Lemma isTargeted_keys (token : Token) (attr : Attribute) :
  isTargetedResourceTokenAttribute token attr = true ->
  Key attr = "src" \/ Key attr = "poster"
  \/ (Key attr = "data" /\ Data token = "object").
Proof.
  unfold isTargetedResourceTokenAttribute.
  destruct (String.eqb_spec (Data token) "object") as [Hd|_];
    destruct (String.eqb_spec (Key attr) "data") as [Hk|_];
    destruct (String.eqb_spec (Key attr) "src") as [Hs|_];
    destruct (String.eqb_spec (Key attr) "poster") as [Hp|_];
    cbn; intros H; try discriminate; auto.
Qed.

Lemma processLinkToken_bad_base (token : Token) (base e : string) :
  url.Parse base = Err e -> is_Ok (processLinkToken token base) = false.
Proof.
  intros Hbase. rewrite processLinkToken_href.
  destruct (Spec.href token) as [val|]; [|reflexivity].
  unfold processHref. destruct (HasPrefix val "#"); [reflexivity|].
  destruct (url.Parse val); [|reflexivity]. rewrite Hbase. reflexivity.
Qed.

End ScanFacts.

(** ** What [Parse] returns *)
Section ParseClaim.
Import strings html ResourceAndLinkFinder.
Context {L : url.Lib}.

Lemma reported_Some (token : Token) (key u : string) :
  Spec.reported token key = Some u
  <-> exists uris, processResourceToken token = Ok uris /\ uris !! key = Some u.
Proof.
  unfold Spec.reported. destruct (processResourceToken token) as [uris|e].
  - split; [intros H; exists uris; split; [reflexivity | exact H]|].
    intros (uris' & [= <-] & H). exact H.
  - split; [discriminate|]. intros (uris & ? & _). discriminate.
Qed.

(** C7.  [Parse] never returns an error.  For a token stream made of tokens
    that are no error tokens, followed by nothing (end of stream) or by an
    error token (a terminal tokenizer error) and anything after it, it
    returns as resource urls exactly what [processResourceToken] yields for
    the resource tokens before the error, and as link urls exactly what
    [processLinkToken] yields for the link tokens before the error: every
    such token counts, a token whose processing fails contributes nothing
    and stops nothing, and what follows the error is not read. *)
Theorem C7_Parse_returns_what_was_collected (baseUrl : string)
    (before rest : list Token) :
  (forall page, exists resourceUrls linkUrls,
        Parse baseUrl page = Ok (resourceUrls, linkUrls))
  /\ (Forall (fun token => Type_ token <> ErrorToken) before ->
      rest = [] \/ (exists data attrs rest', rest = mkToken ErrorToken data attrs :: rest') ->
      exists resourceUrls linkUrls,
        Parse baseUrl (before ++ rest) = Ok (resourceUrls, linkUrls)
        /\ (forall u,
              u ∈ resourceUrls
              <-> exists token uris key,
                  token ∈ before /\ isResourceToken token = true
                  /\ processResourceToken token = Ok uris /\ uris !! key = Some u)
        /\ (forall u,
              u ∈ linkUrls
              <-> exists token,
                  token ∈ before /\ isLinkToken token = true
                  /\ processLinkToken token baseUrl = Ok u)).
Proof.
  split.
  - intros page. unfold Parse. destruct (scan baseUrl page ∅ ∅) as [resourceMap linkMap].
    eexists _, _. reflexivity.
  - intros Hbefore Hrest.
    assert (Hvisited : Notions.beforeError (before ++ rest) = before).
    { rewrite (beforeError_app before rest Hbefore).
      destruct Hrest as [->|(data & attrs & rest' & ->)]; apply app_nil_r. }
    exists (keys (scan baseUrl (before ++ rest) ∅ ∅).1),
           (keys (scan baseUrl (before ++ rest) ∅ ∅).2).
    split; [|split].
    + unfold Parse. destruct (scan baseUrl (before ++ rest) ∅ ∅); reflexivity.
    + intros u. rewrite keys_elem_of, scan_resources, lookup_empty, Hvisited. split.
      * intros [[? H]|(token & key & Hin & Hres & Hrep)]; [discriminate|].
        apply reported_Some in Hrep as (uris & Huris & Hkey).
        exists token, uris, key. repeat split; assumption.
      * intros (token & uris & key & Hin & Hres & Huris & Hkey). right.
        exists token, key. split; [exact Hin|]. split; [exact Hres|].
        apply reported_Some. exists uris. split; assumption.
    + intros u. rewrite keys_elem_of, scan_links, lookup_empty, Hvisited. split.
      * intros [[? H]|H]; [discriminate | exact H].
      * intros H. right. exact H.
Qed.

End ParseClaim.

(** The page of [Example2.cutPage], cut by a tokenizer error: the rejected
    anchor is passed over, the link and the image before the error are
    returned, the link after the error is not. *)
Lemma C7_witness :
  Forall (fun token => html.Type_ token <> html.ErrorToken) Example2.cutPage
  /\ ResourceAndLinkFinder.Parse (L:=GoURL.lib) "https://example.com" (Example2.cutPage ++ Example2.afterCut)
     = Ok (["http://insecure.example.com/a.png"], ["https://example.com/next"])
  /\ exists resourceUrls linkUrls,
      ResourceAndLinkFinder.Parse (L:=GoURL.lib) "https://example.com" (Example2.cutPage ++ Example2.afterCut)
      = Ok (resourceUrls, linkUrls)
      /\ (forall u,
            u ∈ linkUrls
            <-> exists token,
                token ∈ Example2.cutPage /\ ResourceAndLinkFinder.isLinkToken token = true
                /\ ResourceAndLinkFinder.processLinkToken (L:=GoURL.lib) token "https://example.com" = Ok u).
Proof.
  assert (Hbefore : Forall (fun token => html.Type_ token <> html.ErrorToken) Example2.cutPage).
  { repeat constructor; discriminate. }
  split; [exact Hbefore|]. split; [reflexivity|].
  destruct (proj2 (C7_Parse_returns_what_was_collected (L:=GoURL.lib)
                     "https://example.com" Example2.cutPage Example2.afterCut)
                  Hbefore
                  (or_intror (ex_intro _ "" (ex_intro _ [] (ex_intro _ [Example.anchorPage]
                                                                     eq_refl)))))
    as (resourceUrls & linkUrls & HParse & _ & Hlinks).
  exists resourceUrls, linkUrls. split; [exact HParse | exact Hlinks].
Defined.

(** ** Further properties of the page scanner *)
Section ScannerProperties.
Import strings html ResourceAndLinkFinder.
Context {L : url.Lib}.

(** X1.  The links [Parse] returns are exactly the links of the start tags
    <a> met before the first error token: for each, the value of its first
    [href], as [processLinkToken] classifies it. *)
Theorem X1_links_exactly (baseUrl : string) (page : list Token) (u : string) :
  u ∈ Notions.linksOf baseUrl page
  <-> exists token val,
      token ∈ Notions.beforeError page
      /\ Type_ token = StartTagToken /\ Data token = "a"
      /\ Spec.href token = Some val
      /\ processHref val baseUrl = Ok u.
Proof.
  rewrite linksOf_scan, keys_elem_of, scan_links, lookup_empty. split.
  - intros [[? H]|(token & Hin & Hlink & Hu)]; [discriminate|].
    unfold isLinkToken in Hlink. apply andb_true_iff in Hlink as [Hty Hdata].
    apply bool_decide_eq_true in Hty. apply String.eqb_eq in Hdata.
    rewrite processLinkToken_href in Hu.
    destruct (Spec.href token) as [val|] eqn:Hhref; [|discriminate].
    exists token, val. repeat split; assumption.
  - intros (token & val & Hin & Hty & Hdata & Hhref & Hu). right. exists token.
    split; [exact Hin|]. split.
    + unfold isLinkToken. rewrite Hty, Hdata. reflexivity.
    + rewrite processLinkToken_href, Hhref. exact Hu.
Qed.

(** X2.  The resource urls [Parse] returns are exactly what the resource
    tokens met before the first error token report under some attribute
    key. *)
Theorem X2_resources_exactly (baseUrl : string) (page : list Token) (u : string) :
  u ∈ Notions.resourcesOf baseUrl page
  <-> exists token key,
      token ∈ Notions.beforeError page
      /\ isResourceToken token = true
      /\ Spec.reported token key = Some u.
Proof.
  rewrite resourcesOf_scan, keys_elem_of, scan_resources, lookup_empty. split.
  - intros [[? H]|H]; [discriminate | exact H].
  - intros H. right. exact H.
Qed.

(** X3.  Neither list that [Parse] returns holds a url twice. *)
Theorem X3_no_duplicates (baseUrl : string) (page : list Token) :
  NoDup (Notions.resourcesOf baseUrl page) /\ NoDup (Notions.linksOf baseUrl page).
Proof.
  rewrite resourcesOf_scan, linksOf_scan. unfold keys.
  split; apply NoDup_fst_map_to_list.
Qed.

(** X4.  Every resource url [Parse] returns is the string of the parsed
    value of a targeted attribute of a resource token of the page, and that
    url has a scheme, which is not "https": a relative or https reference is
    never reported. *)
Theorem X4_reported_resource_is_insecure (baseUrl : string) (page : list Token)
    (u : string) :
  u ∈ Notions.resourcesOf baseUrl page ->
  exists token attr uri,
    token ∈ page /\ isResourceToken token = true
    /\ attr ∈ Attr token
    /\ isTargetedResourceTokenAttribute token attr = true
    /\ url.Parse (Val attr) = Ok uri
    /\ u = url.String_ uri
    /\ url.Scheme uri <> "" /\ url.Scheme uri <> "https".
Proof.
  rewrite resourcesOf_scan, keys_elem_of, scan_resources, lookup_empty.
  intros [[? H]|(token & key & Hin & Hres & Hrep)]; [discriminate|].
  apply reported_fromAttribute in Hrep as (attr & uri & Hattr & _ & Ht & Hp & Hi & Hu).
  apply ignoredResource_false_inv in Hi as (Hs & Hhttps & _).
  exists token, attr, uri.
  split; [apply beforeError_subset; exact Hin|]. repeat split; assumption.
Qed.


(** X6.  With a base url that does not parse, [Parse] returns no link at
    all, whatever the page holds. *)
Theorem X6_no_links_without_base (baseUrl e : string) (page : list Token) :
  url.Parse baseUrl = Err e ->
  Notions.linksOf baseUrl page = [].
Proof.
  intros Hbase.
  assert (Hnone : forall u, u ∉ Notions.linksOf baseUrl page).
  { intros u. rewrite linksOf_scan, keys_elem_of, scan_links, lookup_empty.
    intros [[? H]|(token & _ & _ & Hu)]; [discriminate|].
    pose proof (processLinkToken_bad_base token baseUrl e Hbase) as Hbad.
    rewrite Hu in Hbad. discriminate. }
  destruct (Notions.linksOf baseUrl page) as [|u links]; [reflexivity|].
  exfalso. apply (Hnone u). left.
Qed.

(** X7.  Scanning a stream without error token followed by another stream
    returns the urls of the one and of the other. *)
Theorem X7_concatenation (baseUrl : string) (page rest : list Token) (u : string) :
  Forall (fun token => Type_ token <> ErrorToken) page ->
  (u ∈ Notions.linksOf baseUrl (page ++ rest)
   <-> u ∈ Notions.linksOf baseUrl page \/ u ∈ Notions.linksOf baseUrl rest)
  /\ (u ∈ Notions.resourcesOf baseUrl (page ++ rest)
      <-> u ∈ Notions.resourcesOf baseUrl page \/ u ∈ Notions.resourcesOf baseUrl rest).
Proof.
  intros Hpage. split.
  - rewrite !linksOf_scan, !keys_elem_of, !scan_links, !lookup_empty.
    rewrite (beforeError_app page rest Hpage), (beforeError_id page Hpage). split.
    + intros [[? H]|(token & Hin & Hrest)]; [discriminate|].
      apply elem_of_app in Hin as [Hin|Hin]; [left | right]; right; exists token;
        split; assumption.
    + intros [[[? H]|(token & Hin & Hrest)]|[[? H]|(token & Hin & Hrest)]];
        try discriminate; right; exists token; (split; [|exact Hrest]);
        apply elem_of_app; [left | right]; exact Hin.
  - rewrite !resourcesOf_scan, !keys_elem_of, !scan_resources, !lookup_empty.
    rewrite (beforeError_app page rest Hpage), (beforeError_id page Hpage). split.
    + intros [[? H]|(token & key & Hin & Hrest)]; [discriminate|].
      apply elem_of_app in Hin as [Hin|Hin]; [left | right]; right; exists token, key;
        split; assumption.
    + intros [[[? H]|(token & key & Hin & Hrest)]|[[? H]|(token & key & Hin & Hrest)]];
        try discriminate; right; exists token, key; (split; [|exact Hrest]);
        apply elem_of_app; [left | right]; exact Hin.
Qed.

(** X8.  A text, end tag, comment or doctype token, and a self-closing tag
    other than "img" (a self-closing <a>, <iframe>, <source> ...),
    contributes neither a resource nor a link. *)
Theorem X8_ignored_tokens (baseUrl : string) (token : Token) (page : list Token)
    (resourceMap linkMap : gmap string bool) :
  Type_ token = TextToken \/ Type_ token = EndTagToken
  \/ Type_ token = CommentToken \/ Type_ token = DoctypeToken
  \/ (Type_ token = SelfClosingTagToken /\ Data token <> "img") ->
  scan baseUrl (token :: page) resourceMap linkMap
  = scan baseUrl page resourceMap linkMap.
Proof.
  intros Hty. cbn [scan]. unfold isResourceToken, isLinkToken.
  destruct Hty as [-> | [-> | [-> | [-> | [-> Hdata]]]]]; try reflexivity.
  cbn. destruct (String.eqb_spec (Data token) "img") as [?|_]; [contradiction|].
  reflexivity.
Qed.

(** X9.  Under an attribute key a resource token reports the value of the
    last attribute with that key that passes the guard: a later accepted
    attribute of the same name replaces an earlier one. *)
Theorem X9_last_attribute_wins (token : Token) (key : string) :
  Spec.reported token key
  = last (omap (Notions.acceptedUnder token key) (Attr token)).
Proof.
  rewrite reported_lookup, resourceAttr_last, lookup_empty.
  destruct (last _); reflexivity.
Qed.

(** X10.  [processResourceToken] fails exactly when none of the token's
    attributes passes the guard; when it succeeds, its map is keyed by
    "src", "poster" or "data" ("data" only on an object tag), so a token
    yields between one and three urls. *)
Theorem X10_resource_token_result (token : Token) :
  (is_Ok (processResourceToken token) = false
   <-> forall attr, attr ∈ Attr token -> Notions.accepted token attr = None)
  /\ (forall uris,
        processResourceToken token = Ok uris ->
        (forall key, is_Some (uris !! key) ->
                     key = "src" \/ key = "poster"
                     \/ (key = "data" /\ Data token = "object"))
        /\ 1 <= size uris <= 3).
Proof.
  split.
  - unfold processResourceToken.
    destruct (Nat.eqb_spec (size (foldl (resourceAttr token) ∅ (Attr token))) 0)
      as [Hsize|Hsize]; cbn [is_Ok].
    + split; [intros _|reflexivity]. intros attr Hin.
      apply map_size_empty_iff in Hsize.
      destruct (Notions.accepted token attr) as [u|] eqn:Hacc; [exfalso|reflexivity].
      pose proof (resourceAttr_last token (Key attr) (Attr token) ∅) as Hlast.
      rewrite Hsize, lookup_empty in Hlast.
      assert (Hu : u ∈ omap (Notions.acceptedUnder token (Key attr)) (Attr token)).
      { apply list_elem_of_omap. exists attr. split; [exact Hin|].
        unfold Notions.acceptedUnder. rewrite String.eqb_refl. exact Hacc. }
      destruct (omap (Notions.acceptedUnder token (Key attr)) (Attr token)) as [|x l];
        [inversion Hu|].
      rewrite last_cons_Some in Hlast. destruct (last l); discriminate.
    + split; [discriminate|]. intros Hnone. exfalso. apply Hsize.
      apply map_size_empty_iff, map_eq. intros key.
      rewrite resourceAttr_last, lookup_empty.
      assert (Hempty : forall attrs,
                 (forall attr, attr ∈ attrs -> Notions.accepted token attr = None) ->
                 omap (Notions.acceptedUnder token key) attrs = []).
      { induction attrs as [|attr attrs IH]; intros Hattrs; [reflexivity|].
        cbn [omap list_omap]. unfold Notions.acceptedUnder at 1.
        rewrite (Hattrs attr) by left.
        rewrite IH by (intros a Ha; apply Hattrs; right; exact Ha).
        destruct (String.eqb (Key attr) key); reflexivity. }
      rewrite (Hempty (Attr token) Hnone). reflexivity.
  - intros uris Huris.
    assert (Hkeys : forall key, is_Some (uris !! key) ->
                                key = "src" \/ key = "poster"
                                \/ (key = "data" /\ Data token = "object")).
    { intros key [u Hu].
      assert (Hrep : Spec.reported token key = Some u).
      { unfold Spec.reported. rewrite Huris. exact Hu. }
      apply reported_fromAttribute in Hrep as (attr & uri & _ & <- & Ht & _).
      apply isTargeted_keys. exact Ht. }
    split; [exact Hkeys|]. split.
    + unfold processResourceToken in Huris.
      destruct (Nat.eqb_spec (size (foldl (resourceAttr token) ∅ (Attr token))) 0)
        as [|Hsize]; [discriminate|].
      injection Huris as <-. lia.
    + rewrite <- size_dom.
      transitivity (size ({["src"; "poster"; "data"]} : gset string)); [|reflexivity].
      apply subseteq_size. intros key Hkey. apply elem_of_dom in Hkey.
      destruct (Hkeys key Hkey) as [->|[->|[-> _]]]; set_solver.
Qed.

(** X11.  [processLinkToken] decides on the first [href] attribute alone:
    the attributes before it and all attributes after it, further [href]
    included, do not change the result; a token without [href] is
    rejected. *)
Theorem X11_first_href_decides (type : TokenType) (data base : string)
    (before after : list Attribute) (attr : Attribute) :
  (forall a, a ∈ before -> Key a <> "href") ->
  (Key attr = "href" ->
   processLinkToken (mkToken type data (before ++ attr :: after)) base
   = processLinkToken (mkToken type data [attr]) base)
  /\ processLinkToken (mkToken type data before) base
     = Err "Src has not been found. Skipped.".
Proof.
  intros Hbefore. unfold processLinkToken. cbn [Attr].
  induction before as [|a before IH]; cbn [app processLinkAttrs].
  - split; [|reflexivity]. intros Hkey. rewrite Hkey. reflexivity.
  - assert (Ha : String.eqb (Key a) "href" = false).
    { apply String.eqb_neq, Hbefore. left. }
    rewrite Ha. cbn [negb]. apply IH. intros a' Hin. apply Hbefore. right. exact Hin.
Qed.

End ScannerProperties.

(** ** Executions of the scheduler *)
Section RunFacts.
Import main.
Variable Fetch : string -> result (list string * list string).

Lemma run_app (s1 s2 : list Action) (st : State) :
  run Fetch (s1 ++ s2) st
  = match run Fetch s1 st with
    | Some st1 => run Fetch s2 st1
    | None => None
    end.
Proof.
  revert st. induction s1 as [|a s1 IH]; intros st; [reflexivity|].
  cbn [app run]. destruct (step Fetch a st); [apply IH | reflexivity].
Qed.

(** The three kinds of step, with the state they lead to. *)
Lemma step_cases (a : Action) (st st' : State) :
  step Fetch a st = Some st' ->
  returned st = false
  /\ ((exists i url g out,
          a = Run i
          /\ goroutines st !! i = Some (Launched url)
          /\ Notions.goroutineUrl g = url /\ Notions.hasFetched g = true
          /\ (forall from links, g = Sending from links ->
                                 links <> [] /\ exists res, Fetch url = Ok (res, links))
          /\ (forall o, o ∈ out -> exists r, o = Finding url r /\ Notions.found Fetch url r)
          /\ st' = mkState (MarkAsProcessed (registry st) url)
                           (<[i := g]> (goroutines st)) (flag st) false
                           (output st ++ out) (dispatched st))
      \/ (exists i from url rest g,
             a = Receive i
             /\ goroutines st !! i = Some (Sending from (url :: rest))
             /\ Notions.goroutineUrl g = from /\ Notions.hasFetched g = true
             /\ (forall from' links, g = Sending from' links -> links <> [] /\ links = rest)
             /\ st' = select (Arrival url)
                        (mkState (registry st) (<[i := g]> (goroutines st)) (flag st)
                                 false (output st) (dispatched st)))
      \/ (a = Timer /\ st' = select Tick st)).
Proof.
  unfold step. destruct (returned st) eqn:Hret; [discriminate|].
  intros Hstep. split; [reflexivity|]. destruct a as [i|i|].
  - left. destruct (goroutines st !! i) as [[url|? ?|?]|] eqn:Hg; try discriminate.
    unfold fetchUrl in Hstep. destruct (Fetch url) as [[res links]|err] eqn:Hfetch.
    + injection Hstep as <-.
      exists i, url, (match links with [] => Finished url | _ :: _ => Sending url links end),
        (map (Finding url) res).
      split; [reflexivity|]. split; [exact Hg|].
      split; [destruct links; reflexivity|]. split; [destruct links; reflexivity|].
      split; [|split].
      * intros from links'. destruct links; [discriminate|]. intros [= <- <-].
        split; [discriminate|]. exists res. exact Hfetch.
      * intros o Ho. apply list_elem_of_fmap in Ho as (r & -> & Hr).
        exists r. split; [reflexivity|]. exists res, links. split; [exact Hfetch | exact Hr].
      * unfold setGoroutine. cbn. rewrite Hret. reflexivity.
    + injection Hstep as <-. exists i, url, (Finished url), [].
      split; [reflexivity|]. split; [exact Hg|]. split; [reflexivity|].
      split; [reflexivity|]. split; [discriminate|]. split; [intros o Ho; inversion Ho|].
      unfold setGoroutine. cbn. rewrite Hret, app_nil_r. reflexivity.
  - right. left.
    destruct (goroutines st !! i) as [[?|from [|url rest]|?]|] eqn:Hg; try discriminate.
    injection Hstep as <-.
    exists i, from, url, rest,
      (match rest with [] => Finished from | _ :: _ => Sending from rest end).
    split; [reflexivity|]. split; [exact Hg|].
    split; [destruct rest; reflexivity|]. split; [destruct rest; reflexivity|].
    split.
    + intros from' links. destruct rest; [discriminate|]. intros [= <- <-].
      split; [discriminate | reflexivity].
    + unfold setGoroutine. rewrite Hret. reflexivity.
  - right. right. injection Hstep as <-. split; reflexivity.
Qed.

Lemma launched_url_dispatched (st : State) (i : nat) (g : Goroutine) :
  Notions.goroutineUrl <$> goroutines st = dispatched st ->
  goroutines st !! i = Some g ->
  Notions.goroutineUrl g ∈ dispatched st.
Proof.
  intros <- Hg. apply list_elem_of_fmap. exists g. split; [reflexivity|].
  apply list_elem_of_lookup_2 with i. exact Hg.
Qed.

Lemma goroutineUrl_insert (gs : list Goroutine) (i : nat) (g g' : Goroutine) :
  gs !! i = Some g ->
  Notions.goroutineUrl g' = Notions.goroutineUrl g ->
  Notions.goroutineUrl <$> <[i := g']> gs = Notions.goroutineUrl <$> gs.
Proof.
  intros Hg Hurl. rewrite list_fmap_insert, Hurl. apply list_insert_id.
  rewrite list_lookup_fmap, Hg. reflexivity.
Qed.

(** Every step keeps the state consistent. *)
Lemma step_consistent (seed : string) (a : Action) (st st' : State) :
  Notions.consistent Fetch seed st ->
  step Fetch a st = Some st' ->
  Notions.consistent Fetch seed st'.
Proof.
  intros (H1 & [tail H2] & H3 & H4 & H5) Hstep.
  apply step_cases in Hstep
    as [Hret [(i & url & g & out & -> & Hg & Hgu & Hgf & Hgs & Hout & ->)
             | [(i & from & url & rest & g & -> & Hg & Hgu & Hgf & Hgs & ->)
               | [-> ->]]]].
  - (* goroutine [i] runs its fetch *)
    unfold Notions.consistent. cbn [goroutines dispatched output].
    split; [|split; [|split; [|split]]].
    + rewrite (goroutineUrl_insert _ i (Launched url) g Hg Hgu). exact H1.
    + exists tail. exact H2.
    + intros j from links Hj.
      apply list_lookup_insert_Some in Hj as [(-> & -> & _) | (_ & Hj)]; [|exact (H3 j _ _ Hj)].
      destruct (Hgs from links eq_refl) as [Hne [res Hfetch]].
      split; [exact Hne|]. intros u Hu. cbn in Hgu. subst from.
      exists res, links. split; assumption.
    + exact H4.
    + intros page r Hin. apply elem_of_app in Hin as [Hin|Hin]; [exact (H5 page r Hin)|].
      destruct (Hout _ Hin) as (r' & [= -> ->] & Hfound).
      split; [|exact Hfound].
      exact (launched_url_dispatched st i (Launched url) H1 Hg).
  - (* the loop receives from goroutine [i] *)
    assert (Hfrom : from ∈ dispatched st).
    { exact (launched_url_dispatched st i _ H1 Hg). }
    destruct (H3 i from (url :: rest) Hg) as [_ Hlinked].
    assert (Hkeep : Notions.goroutineUrl <$> <[i := g]> (goroutines st) = dispatched st).
    { rewrite (goroutineUrl_insert _ i _ g Hg Hgu). exact H1. }
    assert (Hsending : forall j from' links,
               <[i := g]> (goroutines st) !! j = Some (Sending from' links) ->
               links <> [] /\ forall u, u ∈ links -> Notions.linked Fetch from' u).
    { intros j from' links Hj.
      apply list_lookup_insert_Some in Hj as [(-> & -> & _) | (_ & Hj)];
        [|exact (H3 j _ _ Hj)].
      destruct (Hgs from' links eq_refl) as [Hne ->]. cbn in Hgu. subst from'.
      split; [exact Hne|]. intros u Hu. apply Hlinked. right. exact Hu. }
    unfold Notions.consistent. cbn [select registry].
    destruct (IsNew (registry st) url) eqn:Hnew;
      cbn [negb goFetchUrl goroutines dispatched output registry returned flag].
    + split; [|split; [|split; [|split]]].
      * rewrite fmap_app, Hkeep. reflexivity.
      * exists (tail ++ [url])%list. rewrite H2. reflexivity.
      * intros j from' links Hj.
        apply lookup_snoc_Some in Hj as [[_ Hj] | [_ Hj]]; [|discriminate].
        exact (Hsending j from' links Hj).
      * intros u Hu. apply elem_of_app in Hu as [Hu|Hu].
        -- destruct (H4 u Hu) as [->|(page & Hpage & Hl)]; [left; reflexivity|].
           right. exists page. split; [apply elem_of_app; left; exact Hpage | exact Hl].
        -- apply list_elem_of_singleton in Hu as ->. right. exists from.
           split; [apply elem_of_app; left; exact Hfrom|]. apply Hlinked. left.
      * intros page r Hin. destruct (H5 page r Hin) as [Hpage Hfound].
        split; [apply elem_of_app; left; exact Hpage | exact Hfound].
    + split; [exact Hkeep|]. split; [exists tail; exact H2|].
      split; [exact Hsending|]. split; [exact H4 | exact H5].
  - (* the ticker fires *)
    unfold Notions.consistent. cbn [select].
    destruct (flag st); cbn [goroutines dispatched output].
    + split; [exact H1|]. split; [exists tail; exact H2|]. split; [exact H3|].
      split; [exact H4|]. intros page r Hin.
      apply elem_of_app in Hin as [Hin|Hin]; [exact (H5 page r Hin)|].
      repeat (apply elem_of_cons in Hin as [Hin|Hin]; [discriminate|]). inversion Hin.
    + split; [exact H1|]. split; [exists tail; exact H2|]. split; [exact H3|].
      split; [exact H4 | exact H5].
Qed.

Lemma crawl_consistent (seed : string) : Notions.consistent Fetch seed (crawl seed).
Proof.
  unfold Notions.consistent, crawl. cbn.
  split; [reflexivity|]. split; [exists []; reflexivity|]. split; [|split].
  - intros [|i] from links Hi; discriminate.
  - intros u Hu. apply list_elem_of_singleton in Hu. left. exact Hu.
  - intros page r Hin. inversion Hin.
Qed.

Lemma run_consistent (seed : string) (schedule : list Action) :
  forall st st',
    Notions.consistent Fetch seed st ->
    run Fetch schedule st = Some st' ->
    Notions.consistent Fetch seed st'.
Proof.
  induction schedule as [|a schedule IH]; intros st st' Hst Hrun; cbn [run] in Hrun.
  - injection Hrun as <-. exact Hst.
  - destruct (step Fetch a st) as [st1|] eqn:Hstep; [|discriminate].
    exact (IH st1 st' (step_consistent seed a st st1 Hst Hstep) Hrun).
Qed.

End RunFacts.

(** ** Further properties of the scheduler *)
Section SchedulerProperties.
Import main.
Variable Fetch : string -> result (list string * list string).

(** A goroutine past its fetch stays past it, at the same place in the list
    of goroutines. *)
Lemma step_hasFetched (a : Action) (st st' : State) (i : nat) (g : Goroutine) :
  step Fetch a st = Some st' ->
  goroutines st !! i = Some g ->
  Notions.hasFetched g = true ->
  exists g', goroutines st' !! i = Some g' /\ Notions.hasFetched g' = true.
Proof.
  intros Hstep Hi Hg.
  assert (Hins : forall j g0, goroutines st !! j = Some g0 ->
                              forall g1, Notions.hasFetched g1 = true ->
             exists g', <[j := g1]> (goroutines st) !! i = Some g'
                        /\ Notions.hasFetched g' = true).
  { intros j g0 Hj g1 Hg1. destruct (decide (j = i)) as [->|Hne].
    - exists g1. split; [|exact Hg1]. apply list_lookup_insert_eq.
      apply lookup_lt_Some with g. exact Hi.
    - exists g. split; [|exact Hg]. rewrite list_lookup_insert_ne by exact Hne. exact Hi. }
  apply (step_cases Fetch) in Hstep
    as [Hret [(j & url & g1 & out & -> & Hj & _ & Hg1 & _ & _ & ->)
             | [(j & from & url & rest & g1 & -> & Hj & _ & Hg1 & _ & ->)
               | [-> ->]]]].
  - cbn [goroutines]. exact (Hins j _ Hj g1 Hg1).
  - destruct (Hins j _ Hj g1 Hg1) as (g' & Hg' & Hf). exists g'. split; [|exact Hf].
    cbn [select registry]. destruct (IsNew (registry st) url);
      cbn [negb goFetchUrl goroutines]; [|exact Hg'].
    rewrite lookup_app_l by (apply lookup_lt_Some with g'; exact Hg'). exact Hg'.
  - exists g. split; [|exact Hg]. cbn [select]. destruct (flag st); exact Hi.
Qed.

Lemma run_hasFetched (schedule : list Action) :
  forall st st' i g,
    run Fetch schedule st = Some st' ->
    goroutines st !! i = Some g ->
    Notions.hasFetched g = true ->
    exists g', goroutines st' !! i = Some g' /\ Notions.hasFetched g' = true.
Proof.
  induction schedule as [|a schedule IH]; intros st st' i g Hrun Hi Hg; cbn [run] in Hrun.
  - injection Hrun as <-. exists g. split; assumption.
  - destruct (step Fetch a st) as [st1|] eqn:Hstep; [|discriminate].
    destruct (step_hasFetched a st st1 i g Hstep Hi Hg) as (g1 & Hi1 & Hg1).
    exact (IH st1 st' i g1 Hrun Hi1 Hg1).
Qed.




(** X13.  A crawl only dispatches the seed and urls that a dispatched page
    links to: each dispatched url other than the seed is among the page urls
    that the fetch of some dispatched url returned. *)
Theorem X13_dispatched_urls_are_linked (seed : string) (schedule : list Action)
    (st : State) (u : string) :
  run Fetch schedule (crawl seed) = Some st ->
  u ∈ dispatched st ->
  u = seed
  \/ exists page resources links,
      page ∈ dispatched st /\ Fetch page = Ok (resources, links) /\ u ∈ links.
Proof.
  intros Hrun Hu.
  destruct (run_consistent Fetch seed schedule _ st (crawl_consistent Fetch seed) Hrun)
    as (_ & _ & _ & H4 & _).
  destruct (H4 u Hu) as [->|(page & Hpage & resources & links & Hfetch & Hin)];
    [left; reflexivity|].
  right. exists page, resources, links. repeat split; assumption.
Qed.

(** X14.  Every finding a crawl prints names a dispatched page and an
    insecure resource url that the fetch of that page returned. *)
Theorem X14_findings_come_from_fetches (seed : string) (schedule : list Action)
    (st : State) (page r : string) :
  run Fetch schedule (crawl seed) = Some st ->
  Finding page r ∈ output st ->
  page ∈ dispatched st
  /\ exists resources links, Fetch page = Ok (resources, links) /\ r ∈ resources.
Proof.
  intros Hrun Hin.
  destruct (run_consistent Fetch seed schedule _ st (crawl_consistent Fetch seed) Hrun)
    as (_ & _ & _ & _ & H5).
  destruct (H5 page r Hin) as [Hpage Hfound]. split; [exact Hpage | exact Hfound].
Qed.

(** X15.  No execution runs the fetch of the same goroutine twice. *)
Theorem X15_each_goroutine_fetches_once (s1 s2 s3 : list Action) (i : nat) (st : State) :
  run Fetch (s1 ++ Run i :: s2 ++ Run i :: s3) st = None.
Proof.
  rewrite run_app. destruct (run Fetch s1 st) as [st1|]; [|reflexivity].
  cbn [run]. destruct (step Fetch (Run i) st1) as [st2|] eqn:Hstep; [|reflexivity].
  rewrite run_app. destruct (run Fetch s2 st2) as [st3|] eqn:Hrun; [|reflexivity].
  apply (step_cases Fetch) in Hstep
    as [_ [(j & url & g & out & [= <-] & Hi & _ & Hg & _ & _ & ->)
          | [(j & from & url & rest & g & [=] & _) | [[=] _]]]].
  assert (Hi2 : <[i := g]> (goroutines st1) !! i = Some g).
  { apply list_lookup_insert_eq. apply lookup_lt_Some with (Launched url). exact Hi. }
  destruct (run_hasFetched s2 _ st3 i g Hrun Hi2 Hg) as (g' & Hi3 & Hg').
  cbn [run]. unfold step. destruct (returned st3); [reflexivity|].
  rewrite Hi3. destruct g'; [discriminate Hg' | reflexivity | reflexivity].
Qed.

(** X16.  From every state in which [crawl] is still in its loop, one or two
    ticks make it return, whatever goroutines are launched or waiting to
    send: they are left as they are, the dump of the registry is printed,
    and no step follows. *)
Theorem X16_termination_leaves_pending_work (st : State) :
  returned st = false ->
  exists schedule st',
    (schedule = [Timer] \/ schedule = [Timer; Timer])
    /\ run Fetch schedule st = Some st'
    /\ returned st' = true
    /\ goroutines st' = goroutines st
    /\ dispatched st' = dispatched st
    /\ output st' = (output st ++ [Line "-----"; Line "log:"; Dump (registry st)])%list
    /\ forall a, step Fetch a st' = None.
Proof.
  intros Hrun.
  assert (Hover : forall st0 a, returned st0 = true -> step Fetch a st0 = None).
  { intros st0 a H. unfold step. rewrite H. reflexivity. }
  destruct (flag st) eqn:Hflag.
  - exists [Timer], (select Tick st). split; [left; reflexivity|].
    cbn [run]. unfold step. rewrite Hrun. cbn [select]. rewrite Hflag.
    do 5 (split; [reflexivity|]). intros a.
    first [reflexivity | apply Hover; reflexivity].
  - exists [Timer; Timer], (select Tick (select Tick st)). split; [right; reflexivity|].
    cbn [run]. unfold step. rewrite Hrun. cbn [select]. rewrite Hflag.
    cbn [returned flag]. rewrite Hrun.
    do 5 (split; [reflexivity|]). intros a.
    first [reflexivity | apply Hover; reflexivity].
Qed.


(** X18.  When the loop of [crawl] receives, one after the other, all the
    page urls a goroutine has to send, it dispatches those of them that are
    new at that time, in their order, and discards the others; the goroutine
    is then finished and the noted silence is reset. *)
Theorem X18_links_handed_over (links : list string) :
  forall (st : State) (i : nat) (from : string),
    returned st = false ->
    goroutines st !! i = Some (Sending from links) ->
    links <> [] ->
    exists st',
      run Fetch (replicate (length links) (Receive i)) st = Some st'
      /\ dispatched st'
         = (dispatched st ++ List.filter (IsNew (registry st)) links)%list
      /\ goroutines st' !! i = Some (Finished from)
      /\ registry st' = registry st
      /\ flag st' = false
      /\ returned st' = false.
Proof.
  induction links as [|url rest IH]; intros st i from Hrun Hi Hne; [contradiction|].
  cbn [length replicate run]. unfold step. rewrite Hrun, Hi.
  set (g := match rest with [] => Finished from | _ :: _ => Sending from rest end).
  set (st1 := select (Arrival url) (setGoroutine i g st)).
  assert (Hlt : i < length (goroutines st)) by (apply lookup_lt_Some with (1 := Hi)).
  assert (Hst1 : returned st1 = false /\ registry st1 = registry st /\ flag st1 = false
                 /\ goroutines st1 !! i = Some g
                 /\ dispatched st1
                    = (dispatched st ++ List.filter (IsNew (registry st)) [url])%list).
  { unfold st1, setGoroutine. cbn [select registry List.filter].
    destruct (IsNew (registry st) url);
      cbn [negb goFetchUrl returned registry flag goroutines dispatched].
    - repeat split; [exact Hrun| ].
      rewrite lookup_app_l by (rewrite length_insert; exact Hlt).
      apply list_lookup_insert_eq. exact Hlt.
    - rewrite app_nil_r. repeat split; [exact Hrun|].
      apply list_lookup_insert_eq. exact Hlt. }
  destruct Hst1 as (Hrun1 & Hreg1 & Hflag1 & Hi1 & Hd1).
  destruct rest as [|url' rest'].
  - exists st1. cbn [length replicate run]. split; [reflexivity|].
    split; [exact Hd1|]. split; [exact Hi1|]. repeat split; assumption.
  - destruct (IH st1 i from Hrun1 Hi1 ltac:(discriminate))
      as (st' & Hrun' & Hd & Hi' & Hreg & Hflag & Hret).
    exists st'. split; [exact Hrun'|]. split.
    + rewrite Hd, Hd1, Hreg1, <- app_assoc. f_equal.
      change (url :: url' :: rest') with ([url] ++ url' :: rest')%list.
      rewrite List.filter_app. reflexivity.
    + split; [exact Hi'|]. split; [rewrite Hreg; exact Hreg1|]. split; assumption.
Qed.

End SchedulerProperties.

(** ** The further properties on concrete inputs *)
Section MoreExamples.
Import strings html ResourceAndLinkFinder main.
Existing Instance GoURL.lib.

Lemma X4_witness :
  "ftp://example.com/x.jpg" ∈ Notions.resourcesOf "https://example.com" [Example.imgFtp]
  /\ exists token attr uri,
      token ∈ [Example.imgFtp] /\ isResourceToken token = true
      /\ attr ∈ Attr token
      /\ isTargetedResourceTokenAttribute token attr = true
      /\ url.Parse (Val attr) = Ok uri
      /\ "ftp://example.com/x.jpg" = url.String_ uri
      /\ url.Scheme uri <> "" /\ url.Scheme uri <> "https".
Proof.
  assert (Hin : "ftp://example.com/x.jpg"
                ∈ Notions.resourcesOf "https://example.com" [Example.imgFtp]).
  { vm_compute. left. }
  split; [exact Hin|].
  exact (X4_reported_resource_is_insecure "https://example.com" [Example.imgFtp] _ Hin).
Defined.

Lemma X6_witness :
  url.Parse ":" = Err "missing protocol scheme"
  /\ Notions.linksOf ":" [Example.anchorPage; Example.anchorNext] = [].
Proof.
  split; [reflexivity|].
  exact (X6_no_links_without_base ":" "missing protocol scheme"
           [Example.anchorPage; Example.anchorNext] eq_refl).
Defined.

Lemma X7_witness :
  Forall (fun token => Type_ token <> ErrorToken) [Example.imgFtp]
  /\ ("https://example.com/next"
      ∈ Notions.linksOf "https://example.com" ([Example.imgFtp] ++ [Example.anchorNext])
      <-> "https://example.com/next" ∈ Notions.linksOf "https://example.com" [Example.imgFtp]
          \/ "https://example.com/next"
             ∈ Notions.linksOf "https://example.com" [Example.anchorNext]).
Proof.
  assert (Hpage : Forall (fun token => Type_ token <> ErrorToken) [Example.imgFtp]).
  { repeat constructor. discriminate. }
  split; [exact Hpage|].
  exact (proj1 (X7_concatenation "https://example.com" [Example.imgFtp]
                  [Example.anchorNext] "https://example.com/next" Hpage)).
Defined.

Lemma X8_witness :
  Type_ Example2.anchorClosed = SelfClosingTagToken
  /\ Data Example2.anchorClosed <> "img"
  /\ scan "https://example.com" [Example2.anchorClosed; Example.anchorNext] ∅ ∅
     = scan "https://example.com" [Example.anchorNext] ∅ ∅.
Proof.
  assert (Hdata : Data Example2.anchorClosed <> "img") by discriminate.
  split; [reflexivity|]. split; [exact Hdata|].
  apply X8_ignored_tokens. do 4 right. split; [reflexivity | exact Hdata].
Defined.

Lemma X10_witness :
  processResourceToken Example.imgFtp = Ok {[ "src" := "ftp://example.com/x.jpg" ]}
  /\ 1 <= size ({[ "src" := "ftp://example.com/x.jpg" ]} : gmap string string) <= 3.
Proof.
  split; [reflexivity|].
  exact (proj2 (proj2 (X10_resource_token_result Example.imgFtp) _ eq_refl)).
Defined.

Lemma X11_witness :
  (forall a, a ∈ [mkAttr "class" "nav"] -> Key a <> "href")
  /\ processLinkToken
       (mkToken StartTagToken "a"
          ([mkAttr "class" "nav"] ++ mkAttr "href" "#top"
             :: [mkAttr "href" "https://example.com/page"]))
       "https://example.com"
     = processLinkToken (mkToken StartTagToken "a" [mkAttr "href" "#top"])
         "https://example.com".
Proof.
  assert (Hbefore : forall a, a ∈ [mkAttr "class" "nav"] -> Key a <> "href").
  { intros a Ha. apply list_elem_of_singleton in Ha as ->. discriminate. }
  split; [exact Hbefore|].
  exact (proj1 (X11_first_href_decides StartTagToken "a" "https://example.com"
                  [mkAttr "class" "nav"] [mkAttr "href" "https://example.com/page"]
                  (mkAttr "href" "#top") Hbefore) eq_refl).
Defined.

Lemma X13_witness :
  exists st,
    run Example.Fetch Example.schedule (crawl Example.seed) = Some st
    /\ Example.pageB ∈ dispatched st
    /\ (Example.pageB = Example.seed
        \/ exists page resources links,
            page ∈ dispatched st
            /\ Example.Fetch page = Ok (resources, links) /\ Example.pageB ∈ links).
Proof.
  destruct (run Example.Fetch Example.schedule (crawl Example.seed)) as [st|] eqn:Hrun;
    [|vm_compute in Hrun; discriminate Hrun].
  assert (Hin : Example.pageB ∈ dispatched st).
  { vm_compute in Hrun. injection Hrun as <-. cbn [dispatched]. do 2 right. left. }
  exists st. split; [reflexivity|]. split; [exact Hin|].
  exact (X13_dispatched_urls_are_linked Example.Fetch Example.seed Example.schedule st
           Example.pageB Hrun Hin).
Defined.

Lemma X14_witness :
  exists st,
    run Example2.Fetch [Run 0] (crawl Example.seed) = Some st
    /\ Finding Example.seed "http://cdn.example.com/a.png" ∈ output st
    /\ Example.seed ∈ dispatched st
    /\ exists resources links,
        Example2.Fetch Example.seed = Ok (resources, links)
        /\ "http://cdn.example.com/a.png" ∈ resources.
Proof.
  destruct (run Example2.Fetch [Run 0] (crawl Example.seed)) as [st|] eqn:Hrun;
    [|vm_compute in Hrun; discriminate Hrun].
  assert (Hin : Finding Example.seed "http://cdn.example.com/a.png" ∈ output st).
  { vm_compute in Hrun. injection Hrun as <-. cbn [output]. left. }
  exists st. split; [reflexivity|]. split; [exact Hin|].
  exact (X14_findings_come_from_fetches Example2.Fetch Example.seed [Run 0] st
           Example.seed "http://cdn.example.com/a.png" Hrun Hin).
Defined.

Lemma X16_witness :
  returned Example2.afterSeed = false
  /\ goroutines Example2.afterSeed
     = [Sending Example.seed [Example.pageA; Example.pageB]]
  /\ exists schedule st',
      run Example.Fetch schedule Example2.afterSeed = Some st'
      /\ returned st' = true
      /\ goroutines st' = goroutines Example2.afterSeed.
Proof.
  split; [reflexivity|]. split; [reflexivity|].
  destruct (X16_termination_leaves_pending_work Example.Fetch Example2.afterSeed eq_refl)
    as (schedule & st' & _ & Hrun & Hret & Hg & _).
  exists schedule, st'. split; [exact Hrun|]. split; [exact Hret | exact Hg].
Defined.


Lemma X18_witness :
  returned Example2.afterSeed = false
  /\ goroutines Example2.afterSeed !! 0
     = Some (Sending Example.seed [Example.pageA; Example.pageB])
  /\ exists st',
      run Example.Fetch [Receive 0; Receive 0] Example2.afterSeed = Some st'
      /\ dispatched st' = [Example.seed; Example.pageA; Example.pageB]
      /\ goroutines st' !! 0 = Some (Finished Example.seed).
Proof.
  split; [reflexivity|]. split; [reflexivity|].
  destruct (X18_links_handed_over Example.Fetch [Example.pageA; Example.pageB]
              Example2.afterSeed 0 Example.seed eq_refl eq_refl ltac:(discriminate))
    as (st' & Hrun & Hd & Hg & _).
  exists st'. split; [exact Hrun|]. split; [exact Hd | exact Hg].
Defined.

End MoreExamples.
